(** * cwl2wdl: the WDL generators of [cwl2wdl/generators.py]

    A shallow embedding of [WdlTaskGenerator] (command synthesis) and
    [WdlWorkflowGenerator] (workflow step composition), with the
    properties of the command ordering, of the rendering of inputs and of
    the scatter wrapping of workflow steps.

    Python values are typed as the parser builds them: a position is
    [option Z] ([None] is Python's [None]), text is [string], a list is a
    [list], a dict iterated with [items()] is an association list in
    insertion order. *)

From Stdlib Require Import String Ascii List ZArith Bool Arith Lia.
From Stdlib Require Import Sorted Permutation.
Import ListNotations.
Open Scope string_scope.

(** ** Python builtins used by the generators *)

Module Py.

(** The newline character, written [\n] in the source. *)
Definition nl : string := String "010" "".

(** The double quote character. *)
Definition dquote : string := String "034" "".

(** [sep.join(l)] *)
Fixpoint join (sep : string) (l : list string) : string :=
  match l with
  | [] => ""
  | x :: rest =>
      match rest with
      | [] => x
      | _ :: _ => x ++ sep ++ join sep rest
      end
  end.

(** [s.startswith(p)] *)
Definition startswith (s p : string) : bool := String.prefix p s.

(** [s.split(c)] for a separator of one character, the only kind the
    generators use. *)
Fixpoint split (c : ascii) (s : string) : list string :=
  match s with
  | "" => [""]
  | String a s' =>
      if Ascii.eqb a c then "" :: split c s'
      else match split c s' with
           | h :: t => String a h :: t
           | [] => [String a ""]
           end
  end.

(** [l[-1]] on a list of strings *)
Definition last (l : list string) : string := List.last l "".

(** [s.replace(old, new)]: the occurrences of [old] are replaced from
    left to right, without overlap.  [skip] counts the characters of a
    match that are still to be dropped. *)
Fixpoint replace_from (old new : string) (skip : nat) (s : string) : string :=
  match s with
  | "" => ""
  | String c s' =>
      match skip with
      | S k => replace_from old new k s'
      | O =>
          if String.prefix old s
          then new ++ replace_from old new (String.length old - 1) s'
          else String c (replace_from old new 0 s')
      end
  end.

(** With an empty [old], Python puts [new] around every character. *)
Fixpoint interleave (new s : string) : string :=
  match s with
  | "" => new
  | String c s' => new ++ String c (interleave new s')
  end.

Definition replace (s old new : string) : string :=
  match old with
  | "" => interleave new s
  | String _ _ => replace_from old new 0 s
  end.

(** [enumerate(l)] *)
Fixpoint enumerate_from {A : Type} (i : nat) (l : list A) : list (nat * A) :=
  match l with
  | [] => []
  | x :: rest => (i, x) :: enumerate_from (S i) rest
  end.

Definition enumerate {A : Type} (l : list A) : list (nat * A) :=
  enumerate_from 0 l.

(** [sorted(l, key=...)] is a stable sort; [leb] compares the keys.  A
    stable sort has one result, here reached by insertion: an element
    goes before the first later element that is not smaller. *)
Section Sorted.
Context {A : Type} (leb : A -> A -> bool).

Fixpoint insert (x : A) (l : list A) : list A :=
  match l with
  | [] => [x]
  | y :: rest => if leb x y then x :: l else y :: insert x rest
  end.

Fixpoint sorted (l : list A) : list A :=
  match l with
  | [] => []
  | x :: rest => insert x (sorted rest)
  end.
End Sorted.

(** [l.insert(0, x)] *)
Definition insert0 {A : Type} (x : A) (l : list A) : list A := x :: l.

End Py.

(** ** The descriptors read by the task generator *)

Module Argument.
Record t := mk {
  position : option Z;
  prefix : option string;
  separate : bool;
  value : option string
}.
End Argument.

Module CommandInput.
Record t := mk {
  name : string;
  variable_type : string;
  position : option Z;
  prefix : option string;
  separate : bool;
  is_required : bool;
  default : option string;
  separator : string
}.
End CommandInput.

(** A requirement whose [requirement_type] is ["envVar"] carries a list of
    name/value pairs; a requirement of another type carries an optional
    type and an optional text.  The tag ["envVar"] is the constructor
    [EnvVar]; [Runtime] stands for the requirements of the other types. *)
Module Requirement.
Inductive t :=
| EnvVar (value : list (string * string))
| Runtime (requirement_type : option string) (value : option string).

Definition requirement_type (r : t) : option string :=
  match r with
  | EnvVar _ => Some "envVar"
  | Runtime ty _ => ty
  end.
End Requirement.

Module StructDefinition.
Record t := mk {
  name : string;
  fields : list (string * string)
}.
End StructDefinition.

Module Command.
Record t := mk {
  baseCommand : string;
  arguments : list Argument.t;
  inputs : list CommandInput.t
}.
End Command.

(** Inputs and outputs of a task or of a workflow, as the input and
    output blocks read them. *)
Module Variable_.
Record t := mk {
  name : string;
  variable_type : string;
  is_required : bool
}.
End Variable_.

Module Output.
Record t := mk {
  variable_type : string;
  name : string;
  output : string
}.
End Output.

Module Task.
Record t := mk {
  name : string;
  inputs : list Variable_.t;
  command : Command.t;
  outputs : list Output.t;
  requirements : list Requirement.t;
  stdin : option string;
  stdout : option string
}.
End Task.

(** ** WdlTaskGenerator *)

Module WdlTaskGenerator.

Record t := mk {
  name : string;
  inputs : list Variable_.t;
  command : Command.t;
  outputs : list Output.t;
  requirements : list Requirement.t;
  stdin : option string;
  structs : list StructDefinition.t;
  stdout : option string
}.

(** [__init__(self, task, structs)] *)
Definition init (task : Task.t) (structs : list StructDefinition.t) : t :=
  {| name := Task.name task;
     inputs := Task.inputs task;
     command := Task.command task;
     outputs := Task.outputs task;
     requirements := Task.requirements task;
     stdin := Task.stdin task;
     structs := structs;
     stdout := Task.stdout task |}.

(** [_is_struct] *)
Definition _is_struct (self : t) (vtype : string) : bool :=
  let vtype := Py.replace (Py.replace vtype "Array[" "") "]" "" in
  existsb (String.eqb vtype) (map StructDefinition.name (structs self)).

(** The two parallel lists that [__format_command] grows. *)
Record parts := mkParts {
  command_position : list (option Z);
  command_parts : list string
}.

Definition append (st : parts) (pos : option Z) (tok : string) : parts :=
  {| command_position := command_position st ++ [pos];
     command_parts := command_parts st ++ [tok] |}.

(** The token of an argument. *)
Definition formatted_arg (arg : Argument.t) : string :=
  let value := match Argument.value arg with Some v => v | None => "" end in
  match Argument.prefix arg with
  | Some prefix =>
      if Argument.separate arg then prefix ++ " " ++ value else prefix ++ value
  | None => "" ++ value
  end.

(** Body of the loop over [self.command.arguments]. *)
Definition add_argument (st : parts) (arg : Argument.t) : parts :=
  append st (Argument.position arg) (formatted_arg arg).

(** The token of an input in the standard case. *)
Definition formatted_input (ci : CommandInput.t) : string :=
  let sep :=
    if Py.startswith (CommandInput.variable_type ci) "Array"
    then "sep='" ++ CommandInput.separator ci ++ "' "
    else "" in
  let default :=
    match CommandInput.default ci with
    | Some d => "default='" ++ d ++ "' "
    | None => ""
    end in
  let name := sep ++ default ++ CommandInput.name ci in
  match CommandInput.prefix ci with
  | None => "" ++ "${" ++ name ++ "}"
  | Some prefix =>
      if CommandInput.is_required ci
      then if CommandInput.separate ci
           then prefix ++ " ${" ++ name ++ "}"
           else prefix ++ "${" ++ name ++ "}"
      else "${" ++ prefix ++ " + " ++ name ++ "}"
  end.

(** The test of the first [if] of the loop: a Boolean input that is
    skipped. *)
Definition boolean_skipped (ci : CommandInput.t) : bool :=
  String.eqb (CommandInput.variable_type ci) "Boolean"
  && (match CommandInput.default ci with
      | Some d => String.eqb d "False"
      | None => false
      end
      || match CommandInput.prefix ci with
         | None => true
         | Some _ => false
         end).

(** [command_input.name == self.stdout] *)
Definition is_stdout (self : t) (ci : CommandInput.t) : bool :=
  match stdout self with
  | Some out => String.eqb (CommandInput.name ci) out
  | None => false
  end.

(** Body of the loop over [self.command.inputs]. *)
Definition add_input (self : t) (st : parts) (ci : CommandInput.t) : parts :=
  if boolean_skipped ci then st
  else if _is_struct self (CommandInput.variable_type ci)
  then append st (CommandInput.position ci)
              ("${write_struct(" ++ CommandInput.name ci ++ ")}")
  else if is_stdout self ci then st
  else append st (CommandInput.position ci) (formatted_input ci).

(** The lists after both loops. *)
Definition collected (self : t) : parts :=
  let st0 := {| command_position := [Some 0%Z];
                command_parts := [Command.baseCommand (command self)] |} in
  let st1 := fold_left add_argument (Command.arguments (command self)) st0 in
  fold_left (add_input self) (Command.inputs (command self)) st1.

(** The key [(x[1] is None, x[1])] of the sort. *)
Definition is_None (p : option Z) : bool :=
  match p with None => true | Some _ => false end.

Definition sort_key (x : nat * option Z) : bool * option Z :=
  (is_None (snd x), snd x).

(** Order of the key tuples: first components first ([False < True]),
    then the positions.  Two keys with the same first component hold
    two integers or two [None]; the mixed cases do not occur. *)
Definition tuple_leb (k1 k2 : bool * option Z) : bool :=
  if Bool.eqb (fst k1) (fst k2)
  then match snd k1, snd k2 with
       | Some a, Some b => (a <=? b)%Z
       | None, None => true
       | None, Some _ => true
       | Some _, None => false
       end
  else negb (fst k1).

Definition key_leb (x y : nat * option Z) : bool :=
  tuple_leb (sort_key x) (sort_key y).

Definition cmd_order (self : t) : list nat :=
  map fst (Py.sorted key_leb (Py.enumerate (command_position (collected self)))).

Definition ordered_command_parts (self : t) : list string :=
  map (fun i => nth i (command_parts (collected self)) "") (cmd_order self).

(** The token of an [envVar] requirement. *)
Definition envvar_token (value : list (string * string)) : string :=
  Py.join " " (map (fun envvar => fst envvar ++ "='" ++ snd envvar ++ "'") value).

(** Body of the loop over [self.requirements]. *)
Definition add_requirement (acc : list string) (req : Requirement.t) : list string :=
  match req with
  | Requirement.EnvVar value => Py.insert0 (envvar_token value) acc
  | Requirement.Runtime _ _ => acc
  end.

Definition stdout_token (self : t) : list string :=
  match stdout self with
  | Some out => ["> ${" ++ out ++ "}"]
  | None => []
  end.

(** The tokens that are joined at the end. *)
Definition final_command_parts (self : t) : list string :=
  fold_left add_requirement (requirements self) (ordered_command_parts self)
  ++ stdout_token self.

(** The separator of the final [join]: a space, a backslash, a newline
    and eight spaces. *)
Definition continuation : string := " \" ++ Py.nl ++ "        ".

(** [__format_command] *)
Definition format_command (self : t) : string :=
  Py.join continuation (final_command_parts self).

(** The rest of the class formats text around the command.  Python's
    [re.sub(pattern, repl, string)] is a function of the regular
    expression library; the generators are read for any such function. *)
Section GenerateWdl.
Variable re_sub : string -> string -> string -> string.

(** [__format_inputs] *)
Definition format_input_line (var : Variable_.t) : string :=
  let variable_type :=
    if Variable_.is_required var then Variable_.variable_type var
    else re_sub "($)" "?" (Variable_.variable_type var) in
  variable_type ++ " " ++ Variable_.name var.

Definition format_inputs (self : t) : string :=
  Py.join (Py.nl ++ "    ") (map format_input_line (inputs self)).

(** [__format_outputs] *)
Definition format_outputs (self : t) : string :=
  Py.join (Py.nl ++ "        ")
    (map (fun var => Output.variable_type var ++ " " ++ Output.name var
                     ++ " = " ++ Output.output var)
         (outputs self)).

(** [__format_runtime] *)
Definition runtime_line (requirement : Requirement.t) : list string :=
  match requirement with
  | Requirement.EnvVar _ => []
  | Requirement.Runtime None _ => []
  | Requirement.Runtime (Some _) None => []
  | Requirement.Runtime (Some ty) (Some value) =>
      if String.eqb ty "envVar" then []
      else [ty ++ ": '" ++ value ++ "'"]
  end.

Definition format_runtime (self : t) : string :=
  Py.join (Py.nl ++ "        ") (flat_map runtime_line (requirements self)).

Definition template (name inputs command outputs runtime : string) : string :=
  Py.nl ++ "task " ++ name ++ " {" ++ Py.nl
  ++ "    " ++ inputs ++ Py.nl
  ++ Py.nl
  ++ "    command {" ++ Py.nl
  ++ "        " ++ command ++ Py.nl
  ++ "    }" ++ Py.nl
  ++ Py.nl
  ++ "    output {" ++ Py.nl
  ++ "        " ++ outputs ++ Py.nl
  ++ "    }" ++ Py.nl
  ++ Py.nl
  ++ "    runtime {" ++ Py.nl
  ++ "        " ++ runtime ++ Py.nl
  ++ "    }" ++ Py.nl
  ++ "}" ++ Py.nl.

(** [generate_wdl] *)
Definition generate_wdl (self : t) : string :=
  let wdl := template (name self) (format_inputs self) (format_command self)
                      (format_outputs self) (format_runtime self) in
  if String.eqb (format_runtime self) ""
  then re_sub "\s+runtime {\s+}" "" wdl
  else wdl.
End GenerateWdl.

End WdlTaskGenerator.

(** ** The descriptors read by the workflow generator *)

Module StepInput.
Record t := mk {
  input_id : string;
  value : string
}.
End StepInput.

Module WorkflowStep.
Record t := mk {
  task_id : string;
  step_type : string;
  task_definition : option Task.t;
  inputs : list StepInput.t;
  (** pairs [(loop_var, source_expr)] *)
  scatter : list (string * string);
  (** a dict from a base record to triples
      [(new_name, orig_attr, vartype)], in the order of [items()] *)
  prescatter : list (string * list (string * string * string))
}.
End WorkflowStep.

Module WorkflowOutput.
Record t := mk {
  variable_type : string;
  name : string
}.
End WorkflowOutput.

Module Workflow.
Record t := mk {
  name : string;
  inputs : list Variable_.t;
  outputs : list WorkflowOutput.t;
  steps : list WorkflowStep.t;
  subworkflows : list WorkflowStep.t;
  structs : list StructDefinition.t
}.
End Workflow.

(** ** WdlWorkflowGenerator *)

Module WdlWorkflowGenerator.

(** The instance: the fields copied from the workflow and the three
    lists that [__format_steps] appends to. *)
Record t := mk {
  name : string;
  inputs : list Variable_.t;
  outputs : list WorkflowOutput.t;
  steps : list WorkflowStep.t;
  subworkflows : list WorkflowStep.t;
  structs : list StructDefinition.t;
  task_ids : list string;
  imported_wfs : list string;
  prepped_tasks : list string
}.

(** [__init__(self, workflow)] *)
Definition init (workflow : Workflow.t) : t :=
  {| name := Workflow.name workflow;
     inputs := Workflow.inputs workflow;
     outputs := Workflow.outputs workflow;
     steps := Workflow.steps workflow;
     subworkflows := Workflow.subworkflows workflow;
     structs := Workflow.structs workflow;
     task_ids := [];
     imported_wfs := [];
     prepped_tasks := [] |}.

(** [_format_scatter] *)
Definition scatter_header (scatter : list (string * string)) : string :=
  Py.join (Py.nl ++ "             ")
          (map (fun xy => fst xy ++ " in " ++ snd xy) scatter).

Definition indent_lines (body : string) : string :=
  Py.join Py.nl (map (fun l => "  " ++ l) (Py.split "010" body)).

Definition _format_scatter (scatter : list (string * string)) (body : string)
  : string :=
  match scatter with
  | [] => body
  | _ :: _ =>
      Py.nl ++ "    scatter (" ++ scatter_header scatter ++ ") {" ++ Py.nl
      ++ indent_lines body ++ Py.nl
      ++ "    }" ++ Py.nl
  end.

(** [_format_prescatter]: the block of one item of the dict, and the
    loop that concatenates the blocks. *)
Definition base_rec_item (base_rec : string) : string :=
  Py.replace base_rec "." "_" ++ "_item".

Definition prescatter_block (item : string * list (string * string * string))
  : string :=
  let base_rec := fst item in
  let unpack_attrs :=
    map (fun a : string * string * string =>
           let '(new_name, orig_attr, vartype) := a in
           "  " ++ vartype ++ " " ++ new_name ++ " = "
           ++ base_rec_item base_rec ++ "." ++ orig_attr)
        (snd item) in
  Py.nl ++ "scatter (" ++ base_rec_item base_rec ++ " in " ++ base_rec
  ++ ") {" ++ Py.nl
  ++ Py.join Py.nl unpack_attrs ++ Py.nl
  ++ "}" ++ Py.nl.

Definition _format_prescatter
  (prescatter : list (string * list (string * string * string))) : string :=
  fold_left (fun out item => out ++ prescatter_block item) prescatter "".

(** The call block of a step that has input bindings. *)
Definition call_block (task_id inputs : string) : string :=
  Py.nl ++ "    call " ++ task_id ++ " {" ++ Py.nl
  ++ "        input: " ++ inputs ++ Py.nl
  ++ "    }" ++ Py.nl.

Section FormatSteps.
Variable re_sub : string -> string -> string -> string.

(** One line of the list [inputs] of [__format_steps]. *)
Definition binding_line (task_id : string) (ix : nat * StepInput.t) : string :=
  let pad := if (0 <? fst ix)%nat then "          " else "" in
  pad ++ re_sub (task_id ++ "\.") "" (StepInput.input_id (snd ix))
  ++ "=" ++ StepInput.value (snd ix).

(** The text that the loop of [__format_steps] appends to [steps]. *)
Definition format_step (step : WorkflowStep.t) : string :=
  match WorkflowStep.inputs step with
  | _ :: _ =>
      let inputs := map (binding_line (WorkflowStep.task_id step))
                        (Py.enumerate (WorkflowStep.inputs step)) in
      _format_scatter (WorkflowStep.scatter step)
        (_format_prescatter (WorkflowStep.prescatter step)
         ++ call_block (WorkflowStep.task_id step)
                       (Py.join (", " ++ Py.nl) inputs))
  | [] =>
      _format_scatter (WorkflowStep.scatter step)
                      ("call " ++ WorkflowStep.task_id step)
  end.

(** The line that imports a sub-workflow. *)
Definition import_line (base_task_id : string) : string :=
  "import " ++ Py.dquote ++ base_task_id ++ ".wdl" ++ Py.dquote
  ++ " as " ++ base_task_id.

(** What the loop of [__format_steps] appends to the instance for one
    step. *)
Definition record_step (self : t) (step : WorkflowStep.t) : t :=
  let task_ids' := (task_ids self ++ [WorkflowStep.task_id step])%list in
  let '(imported', prepped') :=
    match WorkflowStep.task_definition step with
    | Some task_definition =>
        if String.eqb (WorkflowStep.step_type step) "task"
        then
          let task_gen := WdlTaskGenerator.init task_definition (structs self) in
          (imported_wfs self,
           (prepped_tasks self
            ++ [WdlTaskGenerator.generate_wdl re_sub task_gen])%list)
        else
          let base_task_id :=
            Py.last (Py.split "." (WorkflowStep.task_id step)) in
          ((imported_wfs self ++ [import_line base_task_id])%list,
           prepped_tasks self)
    | None => (imported_wfs self, prepped_tasks self)
    end in
  {| name := name self; inputs := inputs self; outputs := outputs self;
     steps := steps self; subworkflows := subworkflows self;
     structs := structs self;
     task_ids := task_ids';
     imported_wfs := imported';
     prepped_tasks := prepped' |}.

(** [__format_steps]: the instance after the loop, and the text. *)
Definition format_steps (self : t) : t * string :=
  let body (acc : t * list string) (step : WorkflowStep.t) :=
    (record_step (fst acc) step, (snd acc ++ [format_step step])%list) in
  let acc := fold_left body (steps self ++ subworkflows self) (self, []) in
  (fst acc, Py.join Py.nl (snd acc)).

(** [__format_inputs] *)
Definition format_inputs (self : t) : string :=
  Py.join (Py.nl ++ "    ")
    (map (fun var =>
            (if Variable_.is_required var then Variable_.variable_type var
             else re_sub "($)" "?" (Variable_.variable_type var))
            ++ " " ++ Variable_.name var)
         (inputs self)).

(** [__format_outputs]: without outputs the method returns [None]. *)
Definition format_outputs (self : t) : option string :=
  match outputs self with
  | [] => None
  | _ :: _ =>
      Some (Py.nl ++ "   output {" ++ Py.nl
            ++ "     "
            ++ Py.join (Py.nl ++ "     ")
                 (map (fun outp =>
                         WorkflowOutput.variable_type outp ++ " "
                         ++ Py.last (Py.split "." (WorkflowOutput.name outp))
                         ++ " = " ++ WorkflowOutput.name outp)
                      (outputs self))
            ++ Py.nl
            ++ "   }" ++ Py.nl)
  end.

(** [__format_structs] *)
Definition struct_block (struct : StructDefinition.t) : string :=
  Py.nl ++ "struct " ++ StructDefinition.name struct ++ " {" ++ Py.nl
  ++ Py.join ("," ++ Py.nl)
       (map (fun kv => " " ++ fst kv ++ ": " ++ snd kv)
            (StructDefinition.fields struct))
  ++ Py.nl
  ++ "}" ++ Py.nl.

Definition format_structs (self : t) : string :=
  let out := fold_left (fun out struct => out ++ struct_block struct)
                       (structs self) "" in
  if String.eqb out "" then out else Py.nl ++ out.

(** [%s] applied to the result of [__format_outputs]. *)
Definition str_of (o : option string) : string :=
  match o with
  | Some s => s
  | None => "None"
  end.

Definition template (imports structs name inputs steps outputs tasks : string)
  : string :=
  Py.nl ++ imports ++ Py.nl
  ++ structs ++ Py.nl
  ++ Py.nl
  ++ "workflow " ++ name ++ " {" ++ Py.nl
  ++ "    " ++ inputs ++ Py.nl
  ++ "    " ++ steps ++ Py.nl
  ++ "    " ++ outputs ++ Py.nl
  ++ "}" ++ Py.nl
  ++ tasks ++ Py.nl.

(** [generate_wdl]: the instance after the call, and the text. *)
Definition generate_wdl (self : t) : t * string :=
  let inputs := format_inputs self in
  let '(self', steps) := format_steps self in
  let outputs := format_outputs self' in
  let structs := format_structs self' in
  (self',
   template (Py.join Py.nl (imported_wfs self')) structs (name self')
            inputs steps (str_of outputs)
            (Py.join Py.nl (prepped_tasks self'))).
End FormatSteps.
End WdlWorkflowGenerator.

(** ** A model of [re.sub] on simple patterns

    The pattern of [__format_steps] is the task id followed by an escaped
    dot.  For a pattern made of plain characters, of [.] and of escaped
    punctuation, every match has the length of the pattern, and [re.sub]
    replaces the matches it meets from left to right.  Other patterns are
    outside this model ([None]). *)

Module Re.

Inductive atom :=
| Lit (c : ascii)   (** this character *)
| Dot.              (** any character but a newline *)

Definition is_meta (c : ascii) : bool :=
  existsb (Ascii.eqb c)
          (list_ascii_of_string ".^$*+?{}[]()|\").

Definition is_alnum (c : ascii) : bool :=
  let n := nat_of_ascii c in
  (((48 <=? n) && (n <=? 57)) || ((65 <=? n) && (n <=? 90))
   || ((97 <=? n) && (n <=? 122)))%nat.

Fixpoint compile (p : string) : option (list atom) :=
  match p with
  | "" => Some []
  | String c rest =>
      if Ascii.eqb c "\" then
        match rest with
        | "" => None
        | String e rest' =>
            if is_alnum e then None
            else option_map (cons (Lit e)) (compile rest')
        end
      else if Ascii.eqb c "." then option_map (cons Dot) (compile rest)
      else if is_meta c then None
      else option_map (cons (Lit c)) (compile rest)
  end.

Definition atom_matches (a : atom) (c : ascii) : bool :=
  match a with
  | Lit x => Ascii.eqb x c
  | Dot => negb (Ascii.eqb c "010")
  end.

(** Does the pattern match at the start of [s]? *)
Fixpoint matches_here (p : list atom) (s : string) : bool :=
  match p with
  | [] => true
  | a :: p' =>
      match s with
      | "" => false
      | String c s' => atom_matches a c && matches_here p' s'
      end
  end.

(** The scan of [re.sub]; [skip] counts the characters of a match that
    are still to be dropped. *)
Fixpoint sub_from (p : list atom) (repl : string) (skip : nat) (s : string)
  : string :=
  match s with
  | "" => ""
  | String c s' =>
      match skip with
      | S k => sub_from p repl k s'
      | O =>
          if matches_here p s
          then repl ++ sub_from p repl (List.length p - 1) s'
          else String c (sub_from p repl 0 s')
      end
  end.

(** [re.sub(pattern, repl, s)], for a replacement without backslash. *)
Definition sub (pattern repl s : string) : option string :=
  match compile pattern with
  | Some [] => None
  | Some (a :: p) =>
      if existsb (Ascii.eqb "\") (list_ascii_of_string repl) then None
      else Some (sub_from (a :: p) repl 0 s)
  | None => None
  end.

(** The same as a total function, to be read where [sub] is defined. *)
Definition sub_or_same (pattern repl s : string) : string :=
  match sub pattern repl s with
  | Some r => r
  | None => s
  end.

End Re.

(** ** Concrete descriptors *)

Module Examples.

Definition run_arg : Argument.t :=
  Argument.mk (Some 0%Z) None true (Some "run").

Definition infile : CommandInput.t :=
  CommandInput.mk "infile" "File" (Some 1%Z) (Some "-i") true true None " ".

(** The task [tool run -i infile]. *)
Definition tool_task : Task.t :=
  Task.mk "tool" [] (Command.mk "tool" [run_arg] [infile]) [] [] None None.

Definition tool : WdlTaskGenerator.t := WdlTaskGenerator.init tool_task [].

(** A flag that is off by default, placed between two inputs. *)
Definition verbose : CommandInput.t :=
  CommandInput.mk "verbose" "Boolean" (Some 5%Z) (Some "--verbose") true false
                  (Some "False") " ".

Definition flagged : WdlTaskGenerator.t :=
  WdlTaskGenerator.init
    (Task.mk "tool" [] (Command.mk "tool" [run_arg] [infile; verbose; infile])
             [] [] None None) [].

(** A task whose captured output is an input of a struct type. *)
Definition rec : StructDefinition.t :=
  StructDefinition.mk "rec" [("a", "File")].

Definition out_rec : CommandInput.t :=
  CommandInput.mk "out" "rec" (Some 2%Z) None true true None " ".

Definition captured_struct : WdlTaskGenerator.t :=
  WdlTaskGenerator.init
    (Task.mk "tool" [] (Command.mk "tool" [] [out_rec]) [] [] None (Some "out"))
    [rec].

(** A task whose captured output is an input of type [File]. *)
Definition out_file : CommandInput.t :=
  CommandInput.mk "out" "File" (Some 2%Z) (Some "-o") true true None " ".

Definition captured_file : WdlTaskGenerator.t :=
  WdlTaskGenerator.init
    (Task.mk "tool" [] (Command.mk "tool" [] [infile; out_file]) []
             [Requirement.EnvVar [("LANG", "C")]] None (Some "out"))
    [rec].

End Examples.

(** ** The emitted order, as pairs of a position and a token *)

Module Order.
Import WdlTaskGenerator.

(** The pair that an enumerated position stands for. *)
Definition entry_of (tokens : list string) (ip : nat * option Z)
  : option Z * string :=
  (snd ip, nth (fst ip) tokens "").

(** The pairs in the order in which the two loops collect them. *)
Definition collected_entries (self : t) : list (option Z * string) :=
  combine (command_position (collected self)) (command_parts (collected self)).

(** The pairs in the order of [cmd_order]. *)
Definition ordered_entries (self : t) : list (option Z * string) :=
  map (fun i => (nth i (command_position (collected self)) None,
                 nth i (command_parts (collected self)) ""))
      (cmd_order self).

Definition unpositioned (e : option Z * string) : bool := is_None (fst e).

Definition at_position (z : Z) (e : option Z * string) : bool :=
  match fst e with
  | Some x => (x =? z)%Z
  | None => false
  end.

(** The base command, at index 0 of the collected lists, comes after
    every other token that has a position. *)
Definition base_after_positioned (self : t) : Prop :=
  forall a b k z,
    nth_error (cmd_order self) a = Some 0%nat ->
    nth_error (cmd_order self) b = Some k ->
    k <> 0%nat ->
    nth_error (command_position (collected self)) k = Some (Some z) ->
    (b < a)%nat.

(** The generator with other command inputs. *)
Definition with_inputs (self : t) (l : list CommandInput.t) : t :=
  {| name := name self; inputs := inputs self;
     command := {| Command.baseCommand := Command.baseCommand (command self);
                   Command.arguments := Command.arguments (command self);
                   Command.inputs := l |};
     outputs := outputs self; requirements := requirements self;
     stdin := stdin self; structs := structs self; stdout := stdout self |}.

(** The loops only append, to both lists at once. *)
Definition grown_from_base (self : t) (st : parts) : Prop :=
  exists ps ts,
    command_position st = Some 0%Z :: ps
    /\ command_parts st = Command.baseCommand (command self) :: ts
    /\ length ps = length ts.

(** The enumerated positions, before and after the sort. *)
Definition enumerated (self : t) : list (nat * option Z) :=
  Py.enumerate (command_position (collected self)).

Definition in_order (self : t) : list (nat * option Z) :=
  Py.sorted key_leb (enumerated self).

(** The tokens of the [envVar] requirements in the order in which the
    loop leaves them: each one was inserted at the front, so the last
    requirement comes first. *)
Definition env_tokens (reqs : list Requirement.t) : list string :=
  rev (flat_map (fun req => match req with
                            | Requirement.EnvVar value => [envvar_token value]
                            | Requirement.Runtime _ _ => []
                            end) reqs).

(** The token that redirects the output to the file named [out]. *)
Definition redirection (out : string) : string := "> ${" ++ out ++ "}".

(** The command of the task [tool] with an indentation of four and of
    eight spaces. *)
Definition tool_command_4 : string :=
  "tool \" ++ Py.nl ++ "    run \" ++ Py.nl ++ "    -i ${infile}".

Definition tool_command_8 : string :=
  "tool \" ++ Py.nl ++ "        run \" ++ Py.nl ++ "        -i ${infile}".

End Order.

(** ** Steps and workflows to state the properties with *)

Module Steps.
Import WdlWorkflowGenerator.

(** The step with another pre-scatter mapping. *)
Definition with_prescatter (step : WorkflowStep.t)
  (prescatter : list (string * list (string * string * string)))
  : WorkflowStep.t :=
  {| WorkflowStep.task_id := WorkflowStep.task_id step;
     WorkflowStep.step_type := WorkflowStep.step_type step;
     WorkflowStep.task_definition := WorkflowStep.task_definition step;
     WorkflowStep.inputs := WorkflowStep.inputs step;
     WorkflowStep.scatter := WorkflowStep.scatter step;
     WorkflowStep.prescatter := prescatter |}.

(** The call block of a step, with its binding lines. *)
Definition step_call (re_sub : string -> string -> string -> string)
  (step : WorkflowStep.t) : string :=
  call_block (WorkflowStep.task_id step)
    (Py.join (", " ++ Py.nl)
       (map (binding_line re_sub (WorkflowStep.task_id step))
            (Py.enumerate (WorkflowStep.inputs step)))).

(** The text of a step whose pre-scatter blocks come first and are
    followed by the declared scatter around the call alone. *)
Definition unpack_before_scatter (re_sub : string -> string -> string -> string)
  (step : WorkflowStep.t) : Prop :=
  format_step re_sub step
  = _format_prescatter (WorkflowStep.prescatter step)
    ++ _format_scatter (WorkflowStep.scatter step) (step_call re_sub step).

(** The name of a binding when only a leading [task_id.] is removed from
    the input id. *)
Definition leading_prefix_removed (task_id input_id : string) : string :=
  let qualifier := task_id ++ "." in
  if String.prefix qualifier input_id
  then String.substring (String.length qualifier)
         (String.length input_id - String.length qualifier) input_id
  else input_id.

(** What one step adds to the import lines and to the nested tasks. *)
Definition step_imports (step : WorkflowStep.t) : list string :=
  match WorkflowStep.task_definition step with
  | Some _ =>
      if String.eqb (WorkflowStep.step_type step) "task" then []
      else [import_line (Py.last (Py.split "." (WorkflowStep.task_id step)))]
  | None => []
  end.

Definition step_tasks (re_sub : string -> string -> string -> string)
  (structs : list StructDefinition.t) (step : WorkflowStep.t) : list string :=
  match WorkflowStep.task_definition step with
  | Some task_definition =>
      if String.eqb (WorkflowStep.step_type step) "task"
      then [WdlTaskGenerator.generate_wdl re_sub
              (WdlTaskGenerator.init task_definition structs)]
      else []
  | None => []
  end.

(** The instance after some task ids, import lines and nested tasks were
    appended to its three lists. *)
Definition grown (self : t) (ids imports tasks : list string) : t :=
  {| name := name self; inputs := inputs self; outputs := outputs self;
     steps := steps self; subworkflows := subworkflows self;
     structs := structs self;
     task_ids := task_ids self ++ ids;
     imported_wfs := imported_wfs self ++ imports;
     prepped_tasks := prepped_tasks self ++ tasks |}.

(** The text of [generate_wdl] as a function of the import lines and of
    the nested tasks that it joins. *)
Definition document (re_sub : string -> string -> string -> string)
  (self : t) (imports tasks : list string) : string :=
  template (Py.join Py.nl imports) (format_structs self) (name self)
           (format_inputs re_sub self)
           (Py.join Py.nl
              (map (format_step re_sub) (steps self ++ subworkflows self)))
           (str_of (format_outputs self))
           (Py.join Py.nl tasks).

(** A step [align] that scatters over [bams], unpacked from the records
    [recs]. *)
Definition unpack_bams : list (string * list (string * string * string)) :=
  [("recs", [("bams", "bam", "File")])].

Definition align_scattered : WorkflowStep.t :=
  WorkflowStep.mk "align" "task" None [StepInput.mk "align.bam" "bam_item"]
                  [("bam_item", "bams")] unpack_bams.

(** The same step without input bindings. *)
Definition align_bare : WorkflowStep.t :=
  WorkflowStep.mk "align" "task" None [] [("bam_item", "bams")] unpack_bams.

(** A step whose task id holds a dot, with an input id in which the task
    id occurs again, up to the dot. *)
Definition wf_align : WorkflowStep.t :=
  WorkflowStep.mk "wf.align" "task" None
                  [StepInput.mk "wf.align.bam" "bam";
                   StepInput.mk "wf.align.wf_align.ref" "ref"] [] [].

(** A workflow with a nested task and a sub-workflow. *)
Definition nested_tool : WorkflowStep.t :=
  WorkflowStep.mk "tool" "task" (Some Examples.tool_task) [] [] [].

Definition sub_workflow : WorkflowStep.t :=
  WorkflowStep.mk "main.sub" "workflow" (Some Examples.tool_task) [] [] [].

Definition main : Workflow.t :=
  Workflow.mk "main" [] [] [nested_tool] [sub_workflow] [].

End Steps.

(** ** The tokens of a command, read off its declaration *)

Module Declared.
Import WdlTaskGenerator Order.

(** The pairs held by the two parallel lists. *)
Definition entries_of (st : parts) : list (option Z * string) :=
  combine (command_position st) (command_parts st).

Definition balanced (st : parts) : Prop :=
  length (command_position st) = length (command_parts st).

(** The pair that an argument adds. *)
Definition arg_entry (arg : Argument.t) : option Z * string :=
  (Argument.position arg, formatted_arg arg).

(** The pair that an input adds, if it adds one. *)
Definition input_entries (self : t) (ci : CommandInput.t)
  : list (option Z * string) :=
  if boolean_skipped ci then []
  else if _is_struct self (CommandInput.variable_type ci)
  then [(CommandInput.position ci,
         "${write_struct(" ++ CommandInput.name ci ++ ")}")]
  else if is_stdout self ci then []
  else [(CommandInput.position ci, formatted_input ci)].

(** The base command, the arguments and the inputs, in the order of the
    declaration. *)
Definition declared_entries (self : t) : list (option Z * string) :=
  ((Some 0%Z, Command.baseCommand (command self))
   :: map arg_entry (Command.arguments (command self))
   ++ flat_map (input_entries self) (Command.inputs (command self)))%list.

(** The order of the sort, on pairs. *)
Definition entry_leb (e1 e2 : option Z * string) : bool :=
  tuple_leb (is_None (fst e1), fst e1) (is_None (fst e2), fst e2).

(** The generator with other arguments and inputs of the command. *)
Definition with_command (self : t) (args : list Argument.t)
  (ins : list CommandInput.t) : t :=
  {| name := name self; inputs := inputs self;
     command := {| Command.baseCommand := Command.baseCommand (command self);
                   Command.arguments := args;
                   Command.inputs := ins |};
     outputs := outputs self; requirements := requirements self;
     stdin := stdin self; structs := structs self; stdout := stdout self |}.

(** The generator with other requirements. *)
Definition with_requirements (self : t) (reqs : list Requirement.t) : t :=
  {| name := name self; inputs := inputs self; command := command self;
     outputs := outputs self; requirements := reqs;
     stdin := stdin self; structs := structs self; stdout := stdout self |}.

Definition is_env (req : Requirement.t) : bool :=
  match req with
  | Requirement.EnvVar _ => true
  | Requirement.Runtime _ _ => false
  end.

(** A command without any position. *)
Definition unpositioned_tool : WdlTaskGenerator.t :=
  WdlTaskGenerator.init
    (Task.mk "tool" []
       (Command.mk "tool"
          [Argument.mk None None true (Some "run");
           Argument.mk None (Some "-v") false None]
          [CommandInput.mk "infile" "File" None (Some "-i") true true None " "])
       [] [] None None) [].

(** Two arguments and an input at the positions 2, 1 and 3. *)
Definition arg_two : Argument.t := Argument.mk (Some 2%Z) None true (Some "two").
Definition arg_one : Argument.t := Argument.mk (Some 1%Z) None true (Some "one").
Definition in_three : CommandInput.t :=
  CommandInput.mk "x" "File" (Some 3%Z) None true true None " ".

Definition numbered : WdlTaskGenerator.t :=
  WdlTaskGenerator.init
    (Task.mk "tool" [] (Command.mk "tool" [arg_two; arg_one] [in_three])
             [] [] None None) [].

(** Requirements of both kinds. *)
Definition mixed_requirements : list Requirement.t :=
  [Requirement.Runtime (Some "docker") (Some "ubuntu");
   Requirement.EnvVar [("LANG", "C")];
   Requirement.Runtime (Some "memory") None].

End Declared.

(** ** Steps, identifiers and requirements, by kind *)

Module Kinds.

(** A step that owns the definition of a task, or of a sub-workflow. *)
Definition owns_task (step : WorkflowStep.t) : bool :=
  match WorkflowStep.task_definition step with
  | Some _ => String.eqb (WorkflowStep.step_type step) "task"
  | None => false
  end.

Definition owns_workflow (step : WorkflowStep.t) : bool :=
  match WorkflowStep.task_definition step with
  | Some _ => negb (String.eqb (WorkflowStep.step_type step) "task")
  | None => false
  end.

(** A requirement that [__format_runtime] prints. *)
Definition printed (req : Requirement.t) : Prop :=
  exists ty value,
    req = Requirement.Runtime (Some ty) (Some value) /\ ty <> "envVar".

(** An identifier made of letters, digits and underscores. *)
Definition plain_char (c : ascii) : bool :=
  Re.is_alnum c || Ascii.eqb c "_".

Definition plain_id (s : string) : bool :=
  forallb plain_char (list_ascii_of_string s).

(** A text without the character [c]. *)
Definition lacks (c : ascii) (s : string) : Prop :=
  ~ In c (list_ascii_of_string s).

(** A workflow whose steps are all imported. *)
Definition imported_only : Workflow.t :=
  Workflow.mk "main" [] []
    [WorkflowStep.mk "align" "task" None [StepInput.mk "align.bam" "bam"] [] []]
    [WorkflowStep.mk "main.sub" "workflow" None [] [] []] [].

(** A task with a docker requirement. *)
Definition dockered : WdlTaskGenerator.t :=
  WdlTaskGenerator.init
    (Task.mk "tool" [] (Command.mk "tool" [] []) []
             [Requirement.EnvVar [("LANG", "C")];
              Requirement.Runtime (Some "docker") (Some "ubuntu")]
             None None) [].

End Kinds.

(** * Properties *)

(** ** Text *)

Module Text.

Lemma app_assoc (a b c : string) : (a ++ b) ++ c = a ++ (b ++ c).
Proof.
  induction a as [|x a IH]; simpl; [reflexivity | now rewrite IH].
Qed.

Lemma app_nil_r (a : string) : a ++ "" = a.
Proof.
  induction a as [|x a IH]; simpl; [reflexivity | now rewrite IH].
Qed.

Lemma length_app (a b : string) :
  String.length (a ++ b) = String.length a + String.length b.
Proof.
  induction a as [|x a IH]; simpl; [reflexivity | now rewrite IH].
Qed.

Lemma join_cons sep x y l :
  Py.join sep (x :: y :: l) = x ++ sep ++ Py.join sep (y :: l).
Proof. reflexivity. Qed.

(** Joining two lists that are not empty. *)
Lemma join_app sep l1 l2 :
  l1 <> [] -> l2 <> [] ->
  Py.join sep (l1 ++ l2) = Py.join sep l1 ++ sep ++ Py.join sep l2.
Proof.
  intros H1 H2. induction l1 as [|x l1 IH]; [congruence|].
  destruct l1 as [|y l1].
  - destruct l2 as [|z l2]; [congruence | reflexivity].
  - change ((x :: y :: l1) ++ l2)%list with (x :: y :: (l1 ++ l2))%list.
    rewrite !join_cons.
    change (y :: (l1 ++ l2))%list with ((y :: l1) ++ l2)%list.
    rewrite IH by discriminate.
    now rewrite !app_assoc.
Qed.

(** The last token of a joined text is its end. *)
Lemma join_snoc sep l x :
  exists body, Py.join sep (l ++ [x]) = body ++ x.
Proof.
  destruct l as [|y l].
  - exists ""; reflexivity.
  - exists (Py.join sep (y :: l) ++ sep).
    rewrite join_app by discriminate. now rewrite app_assoc.
Qed.

Lemma split_not_nil c s : Py.split c s <> [].
Proof.
  destruct s as [|a s]; simpl; [discriminate|].
  destruct (Ascii.eqb a c); [discriminate|].
  destruct (Py.split c s); discriminate.
Qed.

(** Splitting a text at one separator splits the list of its fields. *)
Lemma split_app c a b :
  Py.split c (a ++ String c b) = (Py.split c a ++ Py.split c b)%list.
Proof.
  induction a as [|x a IH]; simpl.
  - now rewrite Ascii.eqb_refl.
  - destruct (Ascii.eqb x c); [now rewrite IH|].
    rewrite IH.
    destruct (Py.split c a) as [|h t] eqn:E; [|reflexivity].
    now destruct (split_not_nil c a).
Qed.

End Text.

(** ** The stable sort *)

Module SortFacts.
Section Facts.
Context {A : Type} (leb : A -> A -> bool).
Hypothesis leb_total : forall x y, leb x y = false -> leb y x = true.
Hypothesis leb_trans :
  forall x y z, leb x y = true -> leb y z = true -> leb x z = true.

Let le (x y : A) : Prop := leb x y = true.

Lemma insert_perm x l : Permutation (Py.insert leb x l) (x :: l).
Proof.
  induction l as [|y l IH]; simpl; [reflexivity|].
  destruct (leb x y); [reflexivity|].
  rewrite IH. apply perm_swap.
Qed.

Lemma sorted_perm l : Permutation (Py.sorted leb l) l.
Proof.
  induction l as [|x l IH]; simpl; [reflexivity|].
  rewrite insert_perm. now constructor.
Qed.

(** Where [insert] puts an element of a sorted list: after the
    elements that are smaller, before the others. *)
Lemma insert_split x l :
  StronglySorted le l ->
  exists l1 l2,
    l = (l1 ++ l2)%list /\ Py.insert leb x l = (l1 ++ x :: l2)%list
    /\ Forall (fun y => leb x y = false) l1
    /\ Forall (fun y => leb x y = true) l2.
Proof.
  induction 1 as [|y l Hl IH Hy]; simpl.
  - exists [], []. repeat split; constructor.
  - destruct (leb x y) eqn:E.
    + exists [], (y :: l). repeat split; [constructor|].
      constructor; [exact E|].
      eapply Forall_impl; [|exact Hy]. intros z Hz.
      eapply leb_trans; [exact E | exact Hz].
    + destruct IH as (l1 & l2 & -> & -> & F1 & F2).
      exists (y :: l1), l2. repeat split; [|exact F2].
      now constructor.
Qed.

Lemma insert_sorted x l :
  StronglySorted le l -> StronglySorted le (Py.insert leb x l).
Proof.
  intros Hl. destruct (insert_split x l Hl) as (l1 & l2 & -> & -> & F1 & F2).
  clear leb_trans. induction l1 as [|y l1 IH]; simpl in *.
  - now constructor.
  - inversion Hl as [|? ? Hl' Hy]; subst.
    inversion F1 as [|? ? Hxy F1']; subst.
    constructor; [now apply IH|].
    apply Forall_app in Hy as [Hy1 Hy2].
    apply Forall_app. split; [exact Hy1|].
    constructor; [now apply leb_total | exact Hy2].
Qed.

Lemma sorted_sorted l : StronglySorted le (Py.sorted leb l).
Proof.
  induction l as [|x l IH]; simpl; [constructor | now apply insert_sorted].
Qed.

(** Stability: the elements of a class whose members are not told
    apart by [leb] keep their order. *)
Section Stable.
Variable p : A -> bool.
Hypothesis p_class : forall x y, p x = true -> p y = true -> leb x y = true.

Lemma insert_filter x l :
  filter p (Py.insert leb x l) = filter p (x :: l).
Proof.
  induction l as [|y l IH]; [reflexivity|].
  simpl Py.insert. destruct (leb x y) eqn:E; [reflexivity|].
  simpl in *. rewrite IH.
  destruct (p x) eqn:Px, (p y) eqn:Py; try reflexivity.
  rewrite (p_class x y Px Py) in E. discriminate.
Qed.

Lemma sorted_filter l : filter p (Py.sorted leb l) = filter p l.
Proof.
  induction l as [|x l IH]; [reflexivity|].
  simpl Py.sorted. rewrite insert_filter. simpl. now rewrite IH.
Qed.
End Stable.
End Facts.
End SortFacts.

(** ** The order of the command tokens *)

Module OrderFacts.
Import WdlTaskGenerator Order.

Lemma key_leb_total x y : key_leb x y = false -> key_leb y x = true.
Proof.
  destruct x as [i [a|]], y as [j [b|]]; cbv [key_leb tuple_leb sort_key];
    simpl; try congruence.
  intros H. apply Z.leb_gt in H. apply Z.leb_le. lia.
Qed.

Lemma key_leb_trans x y z :
  key_leb x y = true -> key_leb y z = true -> key_leb x z = true.
Proof.
  destruct x as [i [a|]], y as [j [b|]], z as [k [c|]];
    cbv [key_leb tuple_leb sort_key]; simpl; try congruence.
  intros H1 H2. apply Z.leb_le in H1, H2. apply Z.leb_le. lia.
Qed.

Lemma append_grown self st pos tok :
  grown_from_base self st -> grown_from_base self (append st pos tok).
Proof.
  intros (ps & ts & Hp & Ht & Hl).
  exists (ps ++ [pos])%list, (ts ++ [tok])%list. simpl.
  rewrite Hp, Ht, !length_app, Hl. auto.
Qed.

Lemma add_input_grown self st ci :
  grown_from_base self st -> grown_from_base self (add_input self st ci).
Proof.
  intros H. unfold add_input.
  repeat match goal with |- context [if ?b then _ else _] => destruct b end;
    auto using append_grown.
Qed.

Lemma fold_left_invariant {S X : Type} (P : S -> Prop) (f : S -> X -> S) l :
  (forall st x, P st -> P (f st x)) ->
  forall st, P st -> P (fold_left f l st).
Proof.
  intros Hf. induction l as [|x l IH]; simpl; auto.
Qed.

Lemma collected_grown self : grown_from_base self (collected self).
Proof.
  unfold collected.
  apply fold_left_invariant; [intros; now apply add_input_grown|].
  apply fold_left_invariant; [intros; now apply append_grown|].
  exists [], []. auto.
Qed.

Lemma collected_length self :
  length (command_position (collected self))
  = length (command_parts (collected self)).
Proof.
  destruct (collected_grown self) as (ps & ts & -> & -> & Hl).
  simpl. now rewrite Hl.
Qed.

(** Enumerated positions and the lists they index. *)
Lemma enumerate_positions (pre l : list (option Z)) :
  Forall (fun ip => nth (fst ip) (pre ++ l) None = snd ip)
         (Py.enumerate_from (length pre) l).
Proof.
  revert pre. induction l as [|x l IH]; intros pre; simpl; constructor.
  - simpl. rewrite app_nth2, Nat.sub_diag by lia. reflexivity.
  - specialize (IH (pre ++ [x])%list).
    rewrite length_app, <- List.app_assoc in IH. simpl in IH.
    now rewrite Nat.add_1_r in IH.
Qed.

Lemma enumerate_entries (pre toks : list string) (l : list (option Z)) :
  length l = length toks ->
  map (entry_of (pre ++ toks)) (Py.enumerate_from (length pre) l)
  = combine l toks.
Proof.
  revert pre toks. induction l as [|x l IH]; intros pre [|t toks] H;
    simpl in *; try discriminate; [reflexivity|].
  f_equal.
  - unfold entry_of. simpl. rewrite app_nth2, Nat.sub_diag by lia. reflexivity.
  - specialize (IH (pre ++ [t])%list toks).
    rewrite length_app, <- List.app_assoc in IH. simpl in IH.
    rewrite Nat.add_1_r in IH. apply IH. lia.
Qed.

Lemma collected_entries_enumerated self :
  collected_entries self
  = map (entry_of (command_parts (collected self))) (enumerated self).
Proof.
  unfold collected_entries, enumerated, Py.enumerate.
  symmetry. apply (enumerate_entries []). apply collected_length.
Qed.

Lemma ordered_entries_in_order self :
  ordered_entries self
  = map (entry_of (command_parts (collected self))) (in_order self).
Proof.
  unfold ordered_entries, cmd_order. fold (enumerated self). fold (in_order self).
  rewrite map_map. apply map_ext_Forall.
  assert (H : Forall (fun ip => nth (fst ip) (command_position (collected self)) None
                                = snd ip) (in_order self)).
  { eapply Permutation_Forall.
    - symmetry. apply SortFacts.sorted_perm.
    - apply (enumerate_positions []). }
  eapply Forall_impl; [|exact H].
  intros [i p] Hip. unfold entry_of. simpl in *. now rewrite Hip.
Qed.

Lemma ordered_parts_entries self :
  map snd (ordered_entries self) = ordered_command_parts self.
Proof.
  unfold ordered_entries, ordered_command_parts. now rewrite map_map.
Qed.

Lemma requirements_prepended reqs : forall acc,
  fold_left add_requirement reqs acc = (env_tokens reqs ++ acc)%list.
Proof.
  induction reqs as [|req reqs IH]; intros acc; [reflexivity|].
  simpl. rewrite IH. unfold env_tokens. simpl.
  destruct req as [value | ty value]; simpl.
  - unfold Py.insert0. now rewrite <- List.app_assoc.
  - reflexivity.
Qed.

(** A list in the order of the keys: first the positions in
    non-decreasing order, then the entries without position. *)
Lemma in_key_order_shape (l : list (nat * option Z)) :
  StronglySorted (fun x y => key_leb x y = true) l ->
  exists zs,
    map snd (filter (fun ip => negb (is_None (snd ip))) l) = map Some zs
    /\ StronglySorted Z.le zs
    /\ l = (filter (fun ip => negb (is_None (snd ip))) l
            ++ filter (fun ip => is_None (snd ip)) l)%list.
Proof.
  induction 1 as [|[i p] l Hl (zs & Hz & Hs & Hsplit) Hx].
  - exists []. repeat split; constructor.
  - destruct p as [z|]; simpl.
    + exists (z :: zs). simpl. rewrite Hz. repeat split.
      * constructor; [exact Hs|].
        apply Forall_forall. intros z' Hin.
        assert (Hin' : In (Some z') (map Some zs)) by now apply in_map.
        rewrite <- Hz in Hin'. apply in_map_iff in Hin' as ([j q] & Hq & Hj).
        simpl in Hq. subst q. apply filter_In in Hj as [Hj _].
        rewrite Forall_forall in Hx. specialize (Hx _ Hj).
        cbv [key_leb tuple_leb sort_key] in Hx. simpl in Hx.
        now apply Z.leb_le.
      * now rewrite <- Hsplit.
    + assert (Hnone : Forall (fun ip => is_None (snd ip) = true) l).
      { eapply Forall_impl; [|exact Hx]. intros [j [q|]]; [|reflexivity].
        cbv [key_leb tuple_leb sort_key]. simpl. congruence. }
      exists []. 
      assert (E1 : filter (fun ip => negb (is_None (snd ip))) l = []).
      { clear -Hnone. induction Hnone as [|y l Hy _ IH]; simpl; [reflexivity|].
        now rewrite Hy. }
      assert (E2 : filter (fun ip => is_None (snd ip)) l = l).
      { clear -Hnone. induction Hnone as [|y l Hy _ IH]; simpl; [reflexivity|].
        now rewrite Hy, IH. }
      rewrite E1, E2. repeat split; constructor.
Qed.

Lemma in_order_sorted self :
  StronglySorted (fun x y => key_leb x y = true) (in_order self).
Proof.
  apply SortFacts.sorted_sorted; [apply key_leb_total | apply key_leb_trans].
Qed.

(** C1. The tokens that have a position are emitted in non-decreasing
    order of position; the tokens without position follow all of them,
    in the order in which they were collected; tokens with the same
    position keep their collected order as well (the sort is stable, with
    key (position is absent, position)).  In the command these tokens
    stand in this order between the tokens of the requirements and the
    redirection. *)
Theorem command_tokens_in_position_order (self : t) :
  map snd (ordered_entries self) = ordered_command_parts self
  /\ final_command_parts self
     = (env_tokens (requirements self) ++ map snd (ordered_entries self)
        ++ stdout_token self)%list
  /\ Permutation (ordered_entries self) (collected_entries self)
  /\ exists positioned rest zs,
       ordered_entries self = (positioned ++ rest)%list
       /\ map fst positioned = map Some zs
       /\ StronglySorted Z.le zs
       /\ Forall (fun e => fst e = None) rest
       /\ rest = filter unpositioned (collected_entries self)
       /\ forall z, filter (at_position z) (ordered_entries self)
                    = filter (at_position z) (collected_entries self).
Proof.
  split; [apply ordered_parts_entries|].
  split.
  { unfold final_command_parts.
    now rewrite requirements_prepended, ordered_parts_entries, List.app_assoc. }
  rewrite ordered_entries_in_order, collected_entries_enumerated.
  set (toks := command_parts (collected self)).
  split.
  { apply Permutation_map. apply SortFacts.sorted_perm. }
  destruct (in_key_order_shape _ (in_order_sorted self)) as (zs & Hz & Hs & Hsplit).
  exists (map (entry_of toks)
              (filter (fun ip => negb (is_None (snd ip))) (in_order self))),
         (map (entry_of toks)
              (filter (fun ip => is_None (snd ip)) (in_order self))),
         zs.
  repeat split.
  - rewrite <- map_app. now rewrite <- Hsplit.
  - rewrite map_map. exact Hz.
  - exact Hs.
  - apply Forall_map. apply Forall_forall. intros [i p] Hin.
    apply filter_In in Hin as [_ Hp]. simpl in *. now destruct p.
  - rewrite filter_map_swap. f_equal. unfold in_order.
    apply SortFacts.sorted_filter.
    intros [i [a|]] [j [b|]]; cbv [unpositioned entry_of]; simpl; try congruence.
    reflexivity.
  - intros z. rewrite !filter_map_swap. f_equal. unfold in_order.
    apply SortFacts.sorted_filter.
    intros [i [a|]] [j [b|]]; cbv [at_position entry_of]; simpl; try congruence.
    intros Ha Hb. apply Z.eqb_eq in Ha, Hb. subst.
    cbv [key_leb tuple_leb sort_key]. simpl. apply Z.leb_refl.
Qed.

End OrderFacts.

(** ** The command of a task *)

Module CommandFacts.
Import WdlTaskGenerator Order OrderFacts.

(** C2 as stated fails: the continuation lines of the command of [tool]
    are not indented by four spaces. *)
Lemma tool_command_not_indented_by_four :
  format_command Examples.tool <> tool_command_4.
Proof.
  apply String.eqb_neq. vm_compute. reflexivity.
Qed.

(** C2, amended.  For the base command [tool], the argument [run] at
    position 0 without prefix and the required [File] input [infile] at
    position 1 with prefix [-i] and [separate], the command is the three
    tokens [tool], [run] and [-i ${infile}] joined by a space, a
    backslash, a newline and eight spaces. *)
Theorem tool_command (task_name : string) (arg_separate : bool)
    (separator : string) :
  format_command
    (init (Task.mk task_name []
             (Command.mk "tool"
                [Argument.mk (Some 0%Z) None arg_separate (Some "run")]
                [CommandInput.mk "infile" "File" (Some 1%Z) (Some "-i")
                                 true true None separator])
             [] [] None None) [])
  = tool_command_8.
Proof. reflexivity. Qed.

(** C3 as stated fails: the lists are seeded with position 0, not with
    an absent position, and in the command of [tool] the base command
    does not come after the tokens that have a position. *)
Lemma base_command_seeded_at_zero :
  nth_error (command_position (collected Examples.tool)) 0 = Some (Some 0%Z)
  /\ ordered_command_parts Examples.tool = ["tool"; "run"; "-i ${infile}"]
  /\ ~ base_after_positioned Examples.tool.
Proof.
  split; [reflexivity|]. split; [reflexivity|].
  intros H.
  specialize (H 0%nat 1%nat 1%nat 0%Z eq_refl eq_refl (Nat.neq_succ_0 0) eq_refl).
  lia.
Qed.

(** C3, amended.  The lists are seeded with the base command at position
    0.  In the emitted order the base command comes after the tokens of
    negative position and before every other token: those of a position
    of at least 0 and those without position. *)
Theorem base_command_sorts_at_zero (self : t) :
  exists before after,
    ordered_entries self
    = (before ++ (Some 0%Z, Command.baseCommand (command self)) :: after)%list
    /\ Forall (fun e => exists z, fst e = Some z /\ (z < 0)%Z) before
    /\ Forall (fun e => fst e = None \/ exists z, fst e = Some z /\ (0 <= z)%Z)
              after
    /\ ordered_command_parts self
       = (map snd before ++ Command.baseCommand (command self)
                              :: map snd after)%list.
Proof.
  destruct (collected_grown self) as (ps & ts & Hp & Ht & _).
  pose proof (ordered_entries_in_order self) as Hord.
  unfold in_order, enumerated, Py.enumerate in Hord. rewrite Hp in Hord.
  simpl in Hord.
  destruct (SortFacts.insert_split key_leb key_leb_trans (0%nat, Some 0%Z)
              (Py.sorted key_leb (Py.enumerate_from 1 ps)))
    as (l1 & l2 & _ & Hins & F1 & F2).
  { apply SortFacts.sorted_sorted; [apply key_leb_total | apply key_leb_trans]. }
  rewrite Hins, map_app in Hord. simpl in Hord.
  set (toks := command_parts (collected self)) in *.
  assert (Hbase : entry_of toks (0%nat, Some 0%Z)
                  = (Some 0%Z, Command.baseCommand (command self))).
  { subst toks. unfold entry_of. simpl. now rewrite Ht. }
  rewrite Hbase in Hord.
  exists (map (entry_of toks) l1), (map (entry_of toks) l2).
  split; [exact Hord|]. split; [|split].
  - apply Forall_map. eapply Forall_impl; [|exact F1].
    intros [i [z|]]; cbv [key_leb tuple_leb sort_key entry_of]; simpl;
      [|discriminate].
    intros H. apply Z.leb_gt in H. eauto.
  - apply Forall_map. eapply Forall_impl; [|exact F2].
    intros [i [z|]]; cbv [key_leb tuple_leb sort_key entry_of]; simpl;
      [|now left].
    intros H. apply Z.leb_le in H. eauto.
  - rewrite <- ordered_parts_entries, Hord, map_app. reflexivity.
Qed.

Lemma collected_with_inputs self l :
  collected (with_inputs self l)
  = fold_left (add_input self) l
      (fold_left add_argument (Command.arguments (command self))
         {| command_position := [Some 0%Z];
            command_parts := [Command.baseCommand (command self)] |}).
Proof. reflexivity. Qed.

(** An input that leaves the two lists as they are can be left out. *)
Lemma skipped_input_irrelevant self ci before after :
  (forall st, add_input self st ci = st) ->
  Command.inputs (command self) = (before ++ ci :: after)%list ->
  collected self = collected (with_inputs self (before ++ after))
  /\ format_command self = format_command (with_inputs self (before ++ after)).
Proof.
  intros Hskip Hin.
  assert (H : collected self = collected (with_inputs self (before ++ after))).
  { rewrite collected_with_inputs. unfold collected. rewrite Hin.
    rewrite !fold_left_app. simpl. now rewrite Hskip. }
  split; [exact H|].
  unfold format_command, final_command_parts, ordered_command_parts, cmd_order.
  rewrite <- H. reflexivity.
Qed.

(** C4. A Boolean input whose default is the text [False], or that has
    no prefix, adds no token and no position, whatever its position: the
    command is the one of the task without this input. *)
Theorem boolean_flag_elided (self : t) (ci : CommandInput.t)
    (before after : list CommandInput.t) :
  CommandInput.variable_type ci = "Boolean" ->
  CommandInput.default ci = Some "False" \/ CommandInput.prefix ci = None ->
  Command.inputs (command self) = (before ++ ci :: after)%list ->
  (forall st, add_input self st ci = st)
  /\ collected self = collected (with_inputs self (before ++ after))
  /\ format_command self = format_command (with_inputs self (before ++ after)).
Proof.
  intros Hty Hor Hin.
  assert (Hskip : forall st, add_input self st ci = st).
  { intros st. unfold add_input, boolean_skipped. rewrite Hty. simpl.
    destruct Hor as [-> | ->]; simpl; [reflexivity|].
    now destruct (CommandInput.default ci) as [d|]; [destruct (d =? "False")|]. }
  split; [exact Hskip|]. now apply (skipped_input_irrelevant self ci).
Qed.

Lemma boolean_flag_elided_witness :
  CommandInput.variable_type Examples.verbose = "Boolean"
  /\ (CommandInput.default Examples.verbose = Some "False"
      \/ CommandInput.prefix Examples.verbose = None)
  /\ Command.inputs (command Examples.flagged)
     = ([Examples.infile] ++ Examples.verbose :: [Examples.infile])%list
  /\ CommandInput.position Examples.verbose = Some 5%Z
  /\ format_command Examples.flagged
     = format_command
         (with_inputs Examples.flagged [Examples.infile; Examples.infile]).
Proof.
  split; [reflexivity|]. split; [left; reflexivity|].
  split; [reflexivity|]. split; [reflexivity|].
  apply (boolean_flag_elided Examples.flagged Examples.verbose
           [Examples.infile] [Examples.infile]);
    [reflexivity | left; reflexivity | reflexivity].
Defined.

(** C5 as stated fails for an input of a struct type: the test for a
    struct comes before the test for the captured output, so the input
    named by [stdout] is written inline as a [write_struct] token. *)
Lemma captured_struct_input_is_inlined :
  stdout Examples.captured_struct = Some (CommandInput.name Examples.out_rec)
  /\ final_command_parts Examples.captured_struct
     = ["tool"; "${write_struct(out)}"; "> ${out}"]
  /\ ~ (forall st, add_input Examples.captured_struct st Examples.out_rec = st).
Proof.
  split; [reflexivity|]. split; [reflexivity|].
  intros H.
  specialize (H {| command_position := []; command_parts := [] |}).
  discriminate H.
Qed.

Lemma stdout_input_skipped self out ci :
  stdout self = Some out ->
  CommandInput.name ci = out ->
  _is_struct self (CommandInput.variable_type ci) = false ->
  forall st, add_input self st ci = st.
Proof.
  intros Hout Hname Hstruct st. unfold add_input.
  destruct (boolean_skipped ci); [reflexivity|].
  rewrite Hstruct. unfold is_stdout. rewrite Hout, Hname, String.eqb_refl.
  reflexivity.
Qed.

(** C5, amended.  For every command with [stdout] set, the last token is
    [> ${stdout}] and the text of the command ends with it, whatever the
    inputs are; the input of that name adds no token, whatever its prefix
    and default, provided its type is not a struct, and the command then
    is the one of the task without that input.  When [stdout] is absent no
    redirection token appears: the tokens are those of the requirements
    and the ordered tokens, with nothing after them, so that every token
    is the token of a requirement, the base command, or the token
    collected for an argument or an input. *)
Theorem stdout_input_excluded_and_redirected (self : t) :
  (forall out,
      stdout self = Some out ->
      final_command_parts self
      = (fold_left add_requirement (requirements self)
                   (ordered_command_parts self)
         ++ [redirection out])%list
      /\ (exists body, format_command self = body ++ "> ${" ++ out ++ "}")
      /\ forall ci,
           CommandInput.name ci = out ->
           _is_struct self (CommandInput.variable_type ci) = false ->
           (forall st, add_input self st ci = st)
           /\ forall before after,
                Command.inputs (command self) = (before ++ ci :: after)%list ->
                format_command self
                = format_command (with_inputs self (before ++ after)))
  /\ (stdout self = None ->
      final_command_parts self
      = fold_left add_requirement (requirements self)
                  (ordered_command_parts self)
      /\ forall tok,
           In tok (final_command_parts self) ->
           In tok (env_tokens (requirements self))
           \/ In tok (command_parts (collected self))).
Proof.
  split.
  - intros out Hout.
    assert (Hparts : final_command_parts self
                     = (fold_left add_requirement (requirements self)
                                  (ordered_command_parts self)
                        ++ [redirection out])%list).
    { unfold final_command_parts, stdout_token. now rewrite Hout. }
    split; [exact Hparts|]. split.
    + unfold format_command. rewrite Hparts. apply Text.join_snoc.
    + intros ci Hname Hstruct.
      pose proof (stdout_input_skipped self out ci Hout Hname Hstruct) as Hskip.
      split; [exact Hskip|].
      intros before after Hin.
      now apply (skipped_input_irrelevant self ci).
  - intros Hnone.
    assert (Hparts : final_command_parts self
                     = fold_left add_requirement (requirements self)
                                 (ordered_command_parts self)).
    { unfold final_command_parts, stdout_token.
      rewrite Hnone. apply List.app_nil_r. }
    split; [exact Hparts|].
    intros tok Hin. rewrite Hparts, requirements_prepended in Hin.
    apply in_app_or in Hin as [Hin | Hin]; [now left | right].
    rewrite <- ordered_parts_entries in Hin.
    apply in_map_iff in Hin as ([pos tok'] & Htok & Hin). simpl in Htok.
    subst tok'.
    assert (Hcol : In (pos, tok) (collected_entries self)).
    { eapply Permutation_in; [|exact Hin].
      rewrite ordered_entries_in_order, collected_entries_enumerated.
      apply Permutation_map. apply SortFacts.sorted_perm. }
    unfold collected_entries in Hcol. now apply in_combine_r in Hcol.
Qed.

Lemma stdout_input_excluded_and_redirected_witness :
  (stdout Examples.captured_file = Some "out"
   /\ CommandInput.name Examples.out_file = "out"
   /\ _is_struct Examples.captured_file
        (CommandInput.variable_type Examples.out_file) = false
   /\ Command.inputs (command Examples.captured_file)
      = ([Examples.infile] ++ Examples.out_file :: [])%list
   /\ format_command Examples.captured_file
      = format_command (with_inputs Examples.captured_file [Examples.infile]))
  /\ (stdout Examples.captured_struct = Some "out"
      /\ final_command_parts Examples.captured_struct
         = (fold_left add_requirement (requirements Examples.captured_struct)
                      (ordered_command_parts Examples.captured_struct)
            ++ [redirection "out"])%list)
  /\ (stdout (with_inputs Examples.captured_file []) = Some "out"
      /\ exists body,
           format_command (with_inputs Examples.captured_file [])
           = body ++ "> ${" ++ "out" ++ "}")
  /\ (stdout Examples.tool = None
      /\ final_command_parts Examples.tool
         = fold_left add_requirement (requirements Examples.tool)
                     (ordered_command_parts Examples.tool)).
Proof.
  split; [|split; [|split]].
  - split; [reflexivity|]. split; [reflexivity|]. split; [reflexivity|].
    split; [reflexivity|].
    destruct (stdout_input_excluded_and_redirected Examples.captured_file)
      as [H _].
    destruct (H "out" eq_refl) as (_ & _ & Hci).
    destruct (Hci Examples.out_file eq_refl eq_refl) as [_ Hcmd].
    exact (Hcmd [Examples.infile] [] eq_refl).
  - split; [reflexivity|].
    destruct (stdout_input_excluded_and_redirected Examples.captured_struct)
      as [H _].
    exact (proj1 (H "out" eq_refl)).
  - split; [reflexivity|].
    destruct (stdout_input_excluded_and_redirected
                (with_inputs Examples.captured_file [])) as [H _].
    exact (proj1 (proj2 (H "out" eq_refl))).
  - split; [reflexivity|].
    destruct (stdout_input_excluded_and_redirected Examples.tool) as [_ H].
    exact (proj1 (H eq_refl)).
Defined.

(** C6. An input named [x] that is not Boolean, not a struct and not the
    captured output, without default and of a type that is not an array,
    is rendered as [-f ${x}] when it is required with prefix [-f] and
    [separate], as [${-f + x}] when it is optional with the same prefix,
    and as [${x}] when it has no prefix. *)
Theorem standard_input_tokens (self : t) (st : parts) (vt : string)
    (pos : option Z) (separate required : bool) (separator : string) :
  (vt =? "Boolean") = false ->
  _is_struct self vt = false ->
  stdout self <> Some "x" ->
  Py.startswith vt "Array" = false ->
  add_input self st
    (CommandInput.mk "x" vt pos (Some "-f") true true None separator)
  = append st pos "-f ${x}"
  /\ add_input self st
       (CommandInput.mk "x" vt pos (Some "-f") true false None separator)
     = append st pos "${-f + x}"
  /\ add_input self st
       (CommandInput.mk "x" vt pos None separate required None separator)
     = append st pos "${x}".
Proof.
  intros Hbool Hstruct Hout Harr.
  assert (Hstd : forall ci, CommandInput.name ci = "x" -> is_stdout self ci = false).
  { intros ci Hn. unfold is_stdout. destruct (stdout self) as [o|]; [|reflexivity].
    rewrite Hn. apply String.eqb_neq. congruence. }
  repeat split; unfold add_input, boolean_skipped, formatted_input; simpl;
    rewrite Hbool, Hstruct, Harr, Hstd by reflexivity; reflexivity.
Qed.

Lemma standard_input_tokens_witness :
  ("File" =? "Boolean") = false
  /\ _is_struct Examples.tool "File" = false
  /\ stdout Examples.tool <> Some "x"
  /\ Py.startswith "File" "Array" = false
  /\ add_input Examples.tool (collected Examples.tool)
       (CommandInput.mk "x" "File" (Some 3%Z) (Some "-f") true true None " ")
     = append (collected Examples.tool) (Some 3%Z) "-f ${x}".
Proof.
  split; [reflexivity|]. split; [reflexivity|]. split; [discriminate|].
  split; [reflexivity|].
  apply (standard_input_tokens Examples.tool (collected Examples.tool) "File"
           (Some 3%Z) true true " ");
    [reflexivity | reflexivity | discriminate | reflexivity].
Defined.

End CommandFacts.

(** ** The steps of a workflow *)

Module StepFacts.
Import WdlWorkflowGenerator Steps.

Section AnyRegex.
Variable re_sub : string -> string -> string -> string.

(** A pre-scatter block ends with a newline. *)
Lemma prescatter_block_ends item :
  exists block, prescatter_block item = block ++ Py.nl.
Proof.
  destruct item as [base_rec attrs]. unfold prescatter_block. simpl fst. simpl snd.
  match goal with
  | |- context [Py.join Py.nl ?l] =>
      exists (Py.nl ++ "scatter (" ++ base_rec_item base_rec ++ " in " ++ base_rec
              ++ ") {" ++ Py.nl ++ Py.join Py.nl l ++ Py.nl ++ "}")
  end.
  rewrite !Text.app_assoc. reflexivity.
Qed.

Lemma format_prescatter_app ps item :
  _format_prescatter (ps ++ [item])
  = _format_prescatter ps ++ prescatter_block item.
Proof.
  unfold _format_prescatter. now rewrite fold_left_app.
Qed.

Lemma format_prescatter_ends ps :
  ps <> [] -> exists unpack, _format_prescatter ps = unpack ++ Py.nl.
Proof.
  intros Hps. destruct (exists_last Hps) as (ps' & item & ->).
  rewrite format_prescatter_app.
  destruct (prescatter_block_ends item) as (block & ->).
  exists (_format_prescatter ps' ++ block). now rewrite Text.app_assoc.
Qed.

(** Indenting two texts that a newline separates. *)
Lemma indent_lines_app a b :
  indent_lines (a ++ Py.nl ++ b) = indent_lines a ++ Py.nl ++ indent_lines b.
Proof.
  unfold indent_lines. change (Py.nl ++ b) with (String "010" b).
  rewrite Text.split_app, map_app.
  apply Text.join_app; intros H; apply map_eq_nil in H;
    now apply Text.split_not_nil in H.
Qed.

Lemma format_step_bound step :
  WorkflowStep.inputs step <> [] ->
  format_step re_sub step
  = _format_scatter (WorkflowStep.scatter step)
      (_format_prescatter (WorkflowStep.prescatter step) ++ step_call re_sub step).
Proof.
  unfold format_step, step_call.
  destruct (WorkflowStep.inputs step); [congruence | reflexivity].
Qed.

(** C7, amended.  For a step with input bindings, a declared scatter and a
    pre-scatter mapping, the text is the declared scatter block, and the
    body of that block holds first the pre-scatter blocks and then the
    call block, each line indented by two more spaces: the pre-scatter
    blocks come before the call, inside the declared scatter. *)
Theorem prescatter_inside_declared_scatter (step : WorkflowStep.t) :
  WorkflowStep.inputs step <> [] ->
  WorkflowStep.scatter step <> [] ->
  WorkflowStep.prescatter step <> [] ->
  exists unpack,
    _format_prescatter (WorkflowStep.prescatter step) = unpack ++ Py.nl
    /\ format_step re_sub step
       = Py.nl ++ "    scatter (" ++ scatter_header (WorkflowStep.scatter step)
         ++ ") {" ++ Py.nl
         ++ indent_lines unpack ++ Py.nl
         ++ indent_lines (step_call re_sub step) ++ Py.nl
         ++ "    }" ++ Py.nl.
Proof.
  intros Hin Hsc Hps.
  destruct (format_prescatter_ends _ Hps) as (unpack & Hunpack).
  exists unpack. split; [exact Hunpack|].
  rewrite (format_step_bound step Hin), Hunpack.
  unfold _format_scatter.
  destruct (WorkflowStep.scatter step) as [|xy sc]; [congruence|].
  rewrite Text.app_assoc, indent_lines_app, !Text.app_assoc.
  reflexivity.
Qed.

(** C9. A step without input bindings is rendered as the bare call,
    wrapped in the declared scatter if there is one; its pre-scatter
    mapping plays no part, empty or not. *)
Theorem bare_call_without_prescatter (step : WorkflowStep.t) :
  WorkflowStep.inputs step = [] ->
  format_step re_sub step
  = _format_scatter (WorkflowStep.scatter step)
                    ("call " ++ WorkflowStep.task_id step)
  /\ (WorkflowStep.scatter step = [] ->
      format_step re_sub step = "call " ++ WorkflowStep.task_id step)
  /\ forall prescatter,
       format_step re_sub (with_prescatter step prescatter)
       = format_step re_sub step.
Proof.
  intros Hin. unfold format_step. simpl. rewrite Hin.
  split; [reflexivity|]. split; [|reflexivity].
  intros ->. reflexivity.
Qed.

End AnyRegex.

(** C7 as stated fails: in the text of the step [align] the pre-scatter
    block does not come first, followed by the declared scatter; the text
    opens with the declared scatter, which holds the pre-scatter block. *)
Lemma prescatter_not_before_declared_scatter :
  ~ unpack_before_scatter Re.sub_or_same align_scattered
  /\ ~ (exists rest,
          format_step Re.sub_or_same align_scattered
          = _format_prescatter (WorkflowStep.prescatter align_scattered) ++ rest)
  /\ format_step Re.sub_or_same align_scattered
     = Py.nl ++ "    scatter (bam_item in bams) {" ++ Py.nl
       ++ "  " ++ Py.nl
       ++ "  scatter (recs_item in recs) {" ++ Py.nl
       ++ "    File bams = recs_item.bam" ++ Py.nl
       ++ "  }" ++ Py.nl
       ++ "  " ++ Py.nl
       ++ "      call align {" ++ Py.nl
       ++ "          input: bam=bam_item" ++ Py.nl
       ++ "      }" ++ Py.nl
       ++ "  " ++ Py.nl
       ++ "    }" ++ Py.nl.
Proof.
  split; [|split].
  - unfold unpack_before_scatter. apply String.eqb_neq. vm_compute. reflexivity.
  - intros (rest & H). vm_compute in H. discriminate H.
  - vm_compute. reflexivity.
Qed.

Lemma prescatter_inside_declared_scatter_witness :
  WorkflowStep.inputs align_scattered <> []
  /\ WorkflowStep.scatter align_scattered <> []
  /\ WorkflowStep.prescatter align_scattered <> []
  /\ exists unpack,
       _format_prescatter (WorkflowStep.prescatter align_scattered)
       = unpack ++ Py.nl
       /\ format_step Re.sub_or_same align_scattered
          = Py.nl ++ "    scatter ("
            ++ scatter_header (WorkflowStep.scatter align_scattered)
            ++ ") {" ++ Py.nl
            ++ indent_lines unpack ++ Py.nl
            ++ indent_lines (step_call Re.sub_or_same align_scattered) ++ Py.nl
            ++ "    }" ++ Py.nl.
Proof.
  split; [discriminate|]. split; [discriminate|]. split; [discriminate|].
  apply (prescatter_inside_declared_scatter Re.sub_or_same align_scattered);
    discriminate.
Defined.

Lemma bare_call_without_prescatter_witness :
  WorkflowStep.inputs align_bare = []
  /\ WorkflowStep.prescatter align_bare <> []
  /\ format_step Re.sub_or_same align_bare
     = _format_scatter (WorkflowStep.scatter align_bare)
                       ("call " ++ WorkflowStep.task_id align_bare).
Proof.
  split; [reflexivity|]. split; [discriminate|].
  apply (bare_call_without_prescatter Re.sub_or_same align_bare).
  reflexivity.
Defined.

(** C8 on the code.  For the task id [wf.align] the pattern is
    [wf.align\.]; in the input id [wf.align.wf_align.ref] it matches the
    leading [wf.align.] and then [wf_align.], the dot of the task id
    standing for any character, and both are removed: the binding is
    named [ref], where removing only the leading qualifier leaves
    [wf_align.ref]. *)
Theorem binding_name_loses_inner_matches :
  Re.sub ("wf.align" ++ "\.") "" "wf.align.wf_align.ref" = Some "ref"
  /\ leading_prefix_removed "wf.align" "wf.align.wf_align.ref" = "wf_align.ref"
  /\ binding_line Re.sub_or_same "wf.align"
       (1%nat, StepInput.mk "wf.align.wf_align.ref" "ref")
     = "          ref=ref"
  /\ format_step Re.sub_or_same wf_align
     = Py.nl ++ "    call wf.align {" ++ Py.nl
       ++ "        input: bam=bam, " ++ Py.nl
       ++ "          ref=ref" ++ Py.nl
       ++ "    }" ++ Py.nl.
Proof.
  repeat split; vm_compute; reflexivity.
Qed.

End StepFacts.

(** ** The lists that the workflow generator accumulates *)

Module AccumulatorFacts.
Import WdlWorkflowGenerator Steps.

Section AnyRegex.
Variable re_sub : string -> string -> string -> string.

Lemma grown_nil self : grown self [] [] [] = self.
Proof.
  destruct self. unfold grown. simpl. now rewrite !List.app_nil_r.
Qed.

Lemma grown_grown self ids imports tasks ids' imports' tasks' :
  grown (grown self ids imports tasks) ids' imports' tasks'
  = grown self (ids ++ ids') (imports ++ imports') (tasks ++ tasks').
Proof.
  unfold grown. simpl. now rewrite !List.app_assoc.
Qed.

Lemma record_step_grown self step :
  record_step re_sub self step
  = grown self [WorkflowStep.task_id step] (step_imports step)
          (step_tasks re_sub (structs self) step).
Proof.
  unfold record_step, grown, step_imports, step_tasks.
  destruct (WorkflowStep.task_definition step) as [task|];
    [destruct (WorkflowStep.step_type step =? "task")|];
    simpl; now rewrite ?List.app_nil_r.
Qed.

(** The loop of [__format_steps], from any instance and any list of
    texts. *)
Lemma steps_loop l : forall self acc,
  fold_left
    (fun (acc : t * list string) step =>
       (record_step re_sub (fst acc) step,
        (snd acc ++ [format_step re_sub step])%list))
    l (self, acc)
  = (grown self (map WorkflowStep.task_id l) (flat_map step_imports l)
           (flat_map (step_tasks re_sub (structs self)) l),
     (acc ++ map (format_step re_sub) l)%list).
Proof.
  induction l as [|step l IH]; intros self acc; simpl.
  - now rewrite grown_nil, List.app_nil_r.
  - rewrite IH, record_step_grown, grown_grown. simpl.
    now rewrite <- List.app_assoc.
Qed.

Lemma format_steps_grown self :
  format_steps re_sub self
  = (grown self (map WorkflowStep.task_id (steps self ++ subworkflows self))
           (flat_map step_imports (steps self ++ subworkflows self))
           (flat_map (step_tasks re_sub (structs self))
                     (steps self ++ subworkflows self)),
     Py.join Py.nl (map (format_step re_sub) (steps self ++ subworkflows self))).
Proof.
  unfold format_steps. now rewrite steps_loop.
Qed.

(** One call of [generate_wdl]: the lists grow by what the steps add, and
    the text joins the grown lists. *)
Lemma generate_wdl_grown self :
  let all := (steps self ++ subworkflows self)%list in
  let after :=
    grown self (map WorkflowStep.task_id all) (flat_map step_imports all)
          (flat_map (step_tasks re_sub (structs self)) all) in
  generate_wdl re_sub self
  = (after, document re_sub self (imported_wfs after) (prepped_tasks after)).
Proof.
  unfold generate_wdl. rewrite format_steps_grown. reflexivity.
Qed.

Lemma join_twice_length (l : list string) :
  l <> [] ->
  String.length (Py.join Py.nl (l ++ l))
  = S (2 * String.length (Py.join Py.nl l)).
Proof.
  intros Hl. rewrite Text.join_app, !Text.length_app by exact Hl.
  simpl. lia.
Qed.

Lemma template_lengths a b a' b' structs name inputs steps outputs :
  template a structs name inputs steps outputs b
  = template a' structs name inputs steps outputs b' ->
  String.length a + String.length b = String.length a' + String.length b'.
Proof.
  intros H. apply (f_equal String.length) in H. unfold template in H.
  repeat rewrite Text.length_app in H. lia.
Qed.

Lemma document_twice_differs self imports tasks :
  imports <> [] \/ tasks <> [] ->
  document re_sub self (imports ++ imports) (tasks ++ tasks)
  <> document re_sub self imports tasks.
Proof.
  intros Hor H. unfold document in H. apply template_lengths in H.
  assert (Hi : String.length (Py.join Py.nl imports)
               <= String.length (Py.join Py.nl (imports ++ imports))).
  { destruct imports; [reflexivity|]. rewrite join_twice_length by discriminate. lia. }
  assert (Ht : String.length (Py.join Py.nl tasks)
               <= String.length (Py.join Py.nl (tasks ++ tasks))).
  { destruct tasks; [reflexivity|]. rewrite join_twice_length by discriminate. lia. }
  destruct Hor as [Hne | Hne]; rewrite (join_twice_length _ Hne) in *; lia.
Qed.

Lemma defined_step_adds structs step :
  WorkflowStep.task_definition step <> None ->
  step_imports step <> [] \/ step_tasks re_sub structs step <> [].
Proof.
  unfold step_imports, step_tasks.
  destruct (WorkflowStep.task_definition step); [|congruence].
  intros _. destruct (WorkflowStep.step_type step =? "task");
    [right | left]; discriminate.
Qed.

(** C10. On an instance made for a workflow in which some step owns a
    task definition, the first [generate_wdl] leaves the task ids, the
    import lines and the nested tasks of the steps in the three lists of
    the instance; the second call appends them again, so that its text
    joins every import line and every nested task twice and differs from
    the first text. *)
Theorem generate_wdl_twice_accumulates (wf : Workflow.t) :
  Exists (fun step => WorkflowStep.task_definition step <> None)
         (Workflow.steps wf ++ Workflow.subworkflows wf) ->
  let all := (Workflow.steps wf ++ Workflow.subworkflows wf)%list in
  let ids := map WorkflowStep.task_id all in
  let imports := flat_map step_imports all in
  let tasks := flat_map (step_tasks re_sub (Workflow.structs wf)) all in
  let first := generate_wdl re_sub (init wf) in
  let second := generate_wdl re_sub (fst first) in
  (task_ids (fst first) = ids
   /\ imported_wfs (fst first) = imports
   /\ prepped_tasks (fst first) = tasks
   /\ snd first = document re_sub (init wf) imports tasks)
  /\ (task_ids (fst second) = (ids ++ ids)%list
      /\ imported_wfs (fst second) = (imports ++ imports)%list
      /\ prepped_tasks (fst second) = (tasks ++ tasks)%list
      /\ snd second
         = document re_sub (init wf) (imports ++ imports) (tasks ++ tasks))
  /\ snd second <> snd first.
Proof.
  intros Hex all ids imports tasks first second.
  assert (H1 : first = (grown (init wf) ids imports tasks,
                        document re_sub (init wf) imports tasks)).
  { subst first. rewrite generate_wdl_grown. reflexivity. }
  assert (H2 : second
               = (grown (init wf) (ids ++ ids) (imports ++ imports)
                        (tasks ++ tasks),
                  document re_sub (init wf) (imports ++ imports)
                           (tasks ++ tasks))).
  { subst second. rewrite H1. simpl fst. rewrite generate_wdl_grown.
    reflexivity. }
  rewrite H1, H2. simpl.
  repeat split.
  apply document_twice_differs.
  assert (Hadd : Exists (fun step => step_imports step <> []
                                     \/ step_tasks re_sub (Workflow.structs wf) step
                                        <> []) all).
  { eapply Exists_impl; [|exact Hex]. intros step. apply defined_step_adds. }
  clear -Hadd. subst imports tasks.
  induction Hadd as [step l [H | H] | step l _ [IH | IH]]; simpl.
  - left. intros E. now apply app_eq_nil in E as [E _].
  - right. intros E. now apply app_eq_nil in E as [E _].
  - left. intros E. now apply app_eq_nil in E as [_ E].
  - right. intros E. now apply app_eq_nil in E as [_ E].
Qed.

End AnyRegex.

Lemma generate_wdl_twice_accumulates_witness :
  Exists (fun step => WorkflowStep.task_definition step <> None)
         (Workflow.steps main ++ Workflow.subworkflows main)
  /\ imported_wfs
       (fst (generate_wdl Re.sub_or_same
               (fst (generate_wdl Re.sub_or_same (init main)))))
     = (flat_map step_imports [nested_tool; sub_workflow]
        ++ flat_map step_imports [nested_tool; sub_workflow])%list
  /\ snd (generate_wdl Re.sub_or_same
            (fst (generate_wdl Re.sub_or_same (init main))))
     <> snd (generate_wdl Re.sub_or_same (init main)).
Proof.
  assert (Hex : Exists (fun step => WorkflowStep.task_definition step <> None)
                       (Workflow.steps main ++ Workflow.subworkflows main)).
  { apply Exists_cons_hd. discriminate. }
  split; [exact Hex|].
  pose proof (generate_wdl_twice_accumulates Re.sub_or_same main Hex) as H.
  split; apply H.
Defined.

End AccumulatorFacts.

(** ** The tokens of a command and its declaration *)

Module DeclaredFacts.
Import WdlTaskGenerator Order OrderFacts Declared.

Lemma combine_snoc {X Y : Type} (a : list X) (b : list Y) x y :
  length a = length b ->
  combine (a ++ [x]) (b ++ [y]) = (combine a b ++ [(x, y)])%list.
Proof.
  revert b. induction a as [|u a IH]; intros [|v b] H; simpl in *;
    try discriminate; [reflexivity|].
  f_equal. apply IH. lia.
Qed.

Lemma append_entries st pos tok :
  balanced st ->
  balanced (append st pos tok)
  /\ entries_of (append st pos tok) = (entries_of st ++ [(pos, tok)])%list.
Proof.
  unfold balanced, entries_of. intros H. simpl. split.
  - rewrite !length_app, H. reflexivity.
  - now apply combine_snoc.
Qed.

Lemma add_arguments_entries args : forall st,
  balanced st ->
  balanced (fold_left add_argument args st)
  /\ entries_of (fold_left add_argument args st)
     = (entries_of st ++ map arg_entry args)%list.
Proof.
  induction args as [|arg args IH]; intros st H; simpl.
  - now rewrite List.app_nil_r.
  - destruct (append_entries st (Argument.position arg) (formatted_arg arg) H)
      as [Hb He].
    destruct (IH _ Hb) as [Hb' He']. split; [exact Hb'|].
    unfold add_argument at 2. rewrite He', He, <- List.app_assoc. reflexivity.
Qed.

Lemma add_input_entries self st ci :
  balanced st ->
  balanced (add_input self st ci)
  /\ entries_of (add_input self st ci)
     = (entries_of st ++ input_entries self ci)%list.
Proof.
  intros H. unfold add_input, input_entries.
  destruct (boolean_skipped ci); [now rewrite List.app_nil_r|].
  destruct (_is_struct self (CommandInput.variable_type ci));
    [now apply append_entries|].
  destruct (is_stdout self ci); [now rewrite List.app_nil_r|].
  now apply append_entries.
Qed.

Lemma add_inputs_entries self ins : forall st,
  balanced st ->
  balanced (fold_left (add_input self) ins st)
  /\ entries_of (fold_left (add_input self) ins st)
     = (entries_of st ++ flat_map (input_entries self) ins)%list.
Proof.
  induction ins as [|ci ins IH]; intros st H; simpl.
  - now rewrite List.app_nil_r.
  - destruct (add_input_entries self st ci H) as [Hb He].
    destruct (IH _ Hb) as [Hb' He']. split; [exact Hb'|].
    rewrite He', He, <- List.app_assoc. reflexivity.
Qed.

(** The two loops collect the declared pairs, in the declared order. *)
Lemma collected_entries_declared self :
  collected_entries self = declared_entries self.
Proof.
  unfold collected_entries, collected. fold (entries_of
    (fold_left (add_input self) (Command.inputs (command self))
       (fold_left add_argument (Command.arguments (command self))
          {| command_position := [Some 0%Z];
             command_parts := [Command.baseCommand (command self)] |}))).
  destruct (add_arguments_entries (Command.arguments (command self))
              {| command_position := [Some 0%Z];
                 command_parts := [Command.baseCommand (command self)] |}
              eq_refl) as [Hb He].
  destruct (add_inputs_entries self (Command.inputs (command self)) _ Hb)
    as [_ He'].
  rewrite He', He. unfold declared_entries, entries_of. reflexivity.
Qed.

Lemma ordered_entries_perm self :
  Permutation (ordered_entries self) (collected_entries self).
Proof.
  rewrite ordered_entries_in_order, collected_entries_enumerated.
  apply Permutation_map. apply SortFacts.sorted_perm.
Qed.

(** X1. The ordered tokens are the base command, one token for every
    argument and one token for every input that is not skipped, and no
    other: the sort loses and repeats none of them. *)
Theorem ordered_tokens_are_the_declared_ones (self : t) :
  Permutation (ordered_entries self) (declared_entries self)
  /\ Permutation (ordered_command_parts self)
       (Command.baseCommand (command self)
        :: map formatted_arg (Command.arguments (command self))
        ++ map snd (flat_map (input_entries self)
                             (Command.inputs (command self))))
  /\ length (ordered_command_parts self)
     = S (length (Command.arguments (command self))
          + length (flat_map (input_entries self)
                             (Command.inputs (command self)))).
Proof.
  assert (H : Permutation (ordered_entries self) (declared_entries self)).
  { rewrite <- collected_entries_declared.
    apply ordered_entries_perm. }
  split; [exact H|].
  assert (H' : Permutation (ordered_command_parts self)
                 (map snd (declared_entries self))).
  { rewrite <- ordered_parts_entries. now apply Permutation_map. }
  unfold declared_entries in H'. simpl in H'.
  rewrite map_app, map_map in H'. simpl in H'.
  split; [exact H'|].
  rewrite (Permutation_length H'). simpl.
  now rewrite length_app, !length_map.
Qed.

(** Sorting a list that is in order leaves it as it is. *)
Lemma sorted_in_order {X : Type} (leb : X -> X -> bool) l :
  StronglySorted (fun x y => leb x y = true) l -> Py.sorted leb l = l.
Proof.
  induction 1 as [|x l Hl IH Hx]; simpl; [reflexivity|].
  rewrite IH. destruct Hx as [|y l' Hy _]; simpl; [reflexivity|].
  now rewrite Hy.
Qed.

(** Sorting commutes with a function that keeps the order. *)
Lemma sorted_map {X Y : Type} (leb : X -> X -> bool) (leb' : Y -> Y -> bool)
    (f : X -> Y) :
  (forall x y, leb' (f x) (f y) = leb x y) ->
  forall l, map f (Py.sorted leb l) = Py.sorted leb' (map f l).
Proof.
  intros Hf. induction l as [|x l IH]; simpl; [reflexivity|].
  rewrite <- IH. generalize (Py.sorted leb l). clear IH.
  induction l0 as [|y l0 IH]; simpl; [reflexivity|].
  rewrite Hf. destruct (leb x y); simpl; [reflexivity | now rewrite IH].
Qed.

Lemma entry_leb_total e1 e2 : entry_leb e1 e2 = false -> entry_leb e2 e1 = true.
Proof.
  destruct e1 as [p1 t1], e2 as [p2 t2].
  exact (key_leb_total (0%nat, p1) (0%nat, p2)).
Qed.

Lemma entry_leb_trans e1 e2 e3 :
  entry_leb e1 e2 = true -> entry_leb e2 e3 = true -> entry_leb e1 e3 = true.
Proof.
  destruct e1 as [p1 t1], e2 as [p2 t2], e3 as [p3 t3].
  exact (key_leb_trans (0%nat, p1) (0%nat, p2) (0%nat, p3)).
Qed.

Lemma entry_leb_antisym e1 e2 :
  entry_leb e1 e2 = true -> entry_leb e2 e1 = true -> fst e1 = fst e2.
Proof.
  destruct e1 as [[a|] t1], e2 as [[b|] t2]; cbv [entry_leb tuple_leb];
    simpl; try congruence.
  intros H1 H2. apply Z.leb_le in H1, H2. f_equal. lia.
Qed.

(** The sort of the indices is the sort of the declared pairs by their
    key. *)
Lemma ordered_entries_sorted self :
  ordered_entries self = Py.sorted entry_leb (declared_entries self).
Proof.
  rewrite ordered_entries_in_order, <- collected_entries_declared,
    collected_entries_enumerated.
  unfold in_order. apply sorted_map. intros [i p] [j q]. reflexivity.
Qed.

Lemma unpositioned_in_order (l : list (option Z * string)) :
  Forall (fun e => fst e = None) l ->
  StronglySorted (fun x y => entry_leb x y = true) l.
Proof.
  induction 1 as [|[p t] l Hp Hl IH]; constructor; [exact IH|].
  simpl in Hp. subst p.
  eapply Forall_impl; [|exact Hl]. intros [q u] Hq. simpl in Hq. now subst q.
Qed.

(** X2. When no argument and no input has a position, the tokens come out
    in the order of the declaration: the base command, the arguments, then
    the inputs that are not skipped. *)
Theorem declaration_order_without_positions (self : t) :
  Forall (fun arg => Argument.position arg = None)
         (Command.arguments (command self)) ->
  Forall (fun ci => CommandInput.position ci = None)
         (Command.inputs (command self)) ->
  ordered_command_parts self
  = (Command.baseCommand (command self)
     :: map formatted_arg (Command.arguments (command self))
     ++ map snd (flat_map (input_entries self)
                          (Command.inputs (command self))))%list.
Proof.
  intros Hargs Hins.
  rewrite <- ordered_parts_entries, ordered_entries_sorted.
  rewrite sorted_in_order.
  - unfold declared_entries. simpl. now rewrite map_app, map_map.
  - unfold declared_entries.
    assert (Hrest : Forall (fun e : option Z * string => fst e = None)
                      (map arg_entry (Command.arguments (command self))
                       ++ flat_map (input_entries self)
                                   (Command.inputs (command self)))).
    { apply Forall_app. split.
      - apply Forall_map. exact Hargs.
      - apply Forall_flat_map. eapply Forall_impl; [|exact Hins].
        intros ci Hci. unfold input_entries.
        repeat match goal with
               | |- context [if ?b then _ else _] => destruct b
               end; repeat constructor; exact Hci. }
    constructor; [now apply unpositioned_in_order|].
    eapply Forall_impl; [|exact Hrest].
    intros [p t] Hp. simpl in Hp. now subst p.
Qed.

Lemma declaration_order_without_positions_witness :
  Forall (fun arg => Argument.position arg = None)
         (Command.arguments (command unpositioned_tool))
  /\ Forall (fun ci => CommandInput.position ci = None)
            (Command.inputs (command unpositioned_tool))
  /\ ordered_command_parts unpositioned_tool
     = ["tool"; "run"; "-v"; "-i ${infile}"].
Proof.
  assert (Ha : Forall (fun arg => Argument.position arg = None)
                      (Command.arguments (command unpositioned_tool)))
    by (repeat constructor).
  assert (Hi : Forall (fun ci => CommandInput.position ci = None)
                      (Command.inputs (command unpositioned_tool)))
    by (repeat constructor).
  split; [exact Ha|]. split; [exact Hi|].
  exact (declaration_order_without_positions unpositioned_tool Ha Hi).
Defined.

(** Two lists in order that hold the same elements are equal, when the
    order tells the elements of the first apart. *)
Lemma in_order_unique {X : Type} (leb : X -> X -> bool) :
  forall l1 l2,
    Permutation l1 l2 ->
    StronglySorted (fun x y => leb x y = true) l1 ->
    StronglySorted (fun x y => leb x y = true) l2 ->
    (forall x y, In x l1 -> In y l1 ->
                 leb x y = true -> leb y x = true -> x = y) ->
    l1 = l2.
Proof.
  induction l1 as [|x l1 IH]; intros l2 Hp H1 H2 Hanti.
  - apply Permutation_nil in Hp. now subst.
  - destruct l2 as [|y l2].
    { symmetry in Hp. now apply Permutation_nil_cons in Hp. }
    apply StronglySorted_inv in H1 as [H1 Hx].
    apply StronglySorted_inv in H2 as [H2 Hy].
    assert (Hxy : x = y).
    { assert (Hyin : In y (x :: l1)).
      { eapply Permutation_in; [symmetry; exact Hp | now left]. }
      assert (Hxin : In x (y :: l2)).
      { eapply Permutation_in; [exact Hp | now left]. }
      destruct Hyin as [E | Hyin]; [exact E|].
      destruct Hxin as [E | Hxin]; [now symmetry|].
      rewrite Forall_forall in Hx, Hy.
      apply Hanti; [now left | now right | now apply Hx | now apply Hy]. }
    subst y. f_equal. apply IH; auto.
    + eapply Permutation_cons_inv; exact Hp.
    + intros a b Ha Hb. apply Hanti; now right.
Qed.

Lemma same_key_same_entry {X Y : Type} (f : X -> Y) l x y :
  NoDup (map f l) -> In x l -> In y l -> f x = f y -> x = y.
Proof.
  induction l as [|z l IH]; simpl; intros Hnd Hx Hy Hf; [contradiction|].
  inversion Hnd as [|? ? Hz Hnd']; subst.
  destruct Hx as [-> | Hx], Hy as [-> | Hy]; auto.
  - exfalso. apply Hz. rewrite Hf. now apply in_map.
  - exfalso. apply Hz. rewrite <- Hf. now apply in_map.
Qed.

(** X3. When the positions of the tokens are all different (none is 0,
    the position of the base command, and at most one token has no
    position), the command does not depend on the order in which the
    arguments are declared, nor on the order of the inputs. *)
Theorem command_independent_of_declaration_order (self : t)
    (args : list Argument.t) (ins : list CommandInput.t) :
  Permutation (Command.arguments (command self)) args ->
  Permutation (Command.inputs (command self)) ins ->
  NoDup (map fst (declared_entries self)) ->
  format_command (with_command self args ins) = format_command self.
Proof.
  intros Pargs Pins Hnd.
  assert (Hperm : Permutation (declared_entries self)
                    (declared_entries (with_command self args ins))).
  { unfold declared_entries. simpl. apply perm_skip. apply Permutation_app.
    - now apply Permutation_map.
    - change (flat_map (input_entries (with_command self args ins)) ins)
        with (flat_map (input_entries self) ins).
      now apply Permutation_flat_map. }
  assert (Hord : ordered_entries self
                 = ordered_entries (with_command self args ins)).
  { rewrite !ordered_entries_sorted.
    apply (in_order_unique entry_leb).
    - rewrite !SortFacts.sorted_perm. exact Hperm.
    - apply SortFacts.sorted_sorted;
        [apply entry_leb_total | apply entry_leb_trans].
    - apply SortFacts.sorted_sorted;
        [apply entry_leb_total | apply entry_leb_trans].
    - intros x y Hx Hy Hxy Hyx.
      apply (same_key_same_entry fst (declared_entries self)); auto.
      + eapply Permutation_in; [apply SortFacts.sorted_perm | exact Hx].
      + eapply Permutation_in; [apply SortFacts.sorted_perm | exact Hy].
      + now apply entry_leb_antisym. }
  unfold format_command, final_command_parts.
  rewrite <- !ordered_parts_entries, Hord. reflexivity.
Qed.

Lemma command_independent_of_declaration_order_witness :
  Permutation (Command.arguments (command numbered)) [arg_one; arg_two]
  /\ Permutation (Command.inputs (command numbered)) [in_three]
  /\ NoDup (map fst (declared_entries numbered))
  /\ format_command (with_command numbered [arg_one; arg_two] [in_three])
     = format_command numbered.
Proof.
  assert (Pa : Permutation (Command.arguments (command numbered))
                           [arg_one; arg_two]) by apply perm_swap.
  assert (Pi : Permutation (Command.inputs (command numbered)) [in_three])
    by apply Permutation_refl.
  assert (Hnd : NoDup (map fst (declared_entries numbered))).
  { simpl. repeat constructor; simpl; intuition discriminate. }
  split; [exact Pa|]. split; [exact Pi|]. split; [exact Hnd|].
  exact (command_independent_of_declaration_order numbered _ _ Pa Pi Hnd).
Defined.

Lemma env_requirements_only reqs : forall acc,
  fold_left add_requirement (filter is_env reqs) acc
  = fold_left add_requirement reqs acc.
Proof.
  induction reqs as [|[value | ty value] reqs IH]; intros acc; simpl; auto.
Qed.

(** X4. The requirements are split between the command and the runtime
    block: the command is the same when only the [envVar] requirements are
    kept, and the runtime block is the same when they are all removed. *)
Theorem requirements_split (self : t) :
  format_command (with_requirements self (filter is_env (requirements self)))
  = format_command self
  /\ format_runtime
       (with_requirements self
          (filter (fun req => negb (is_env req)) (requirements self)))
     = format_runtime self
  /\ format_runtime (with_requirements self (filter is_env (requirements self)))
     = "".
Proof.
  split; [|split].
  - unfold format_command, final_command_parts. simpl.
    now rewrite env_requirements_only.
  - unfold format_runtime. simpl. f_equal.
    induction (requirements self) as [|[value | ty value] reqs IH]; simpl;
      [reflexivity | exact IH | now rewrite IH].
  - unfold format_runtime. simpl.
    induction (requirements self) as [|[value | ty value] reqs IH]; simpl;
      [reflexivity | exact IH | exact IH].
Qed.

End DeclaredFacts.

(** ** Replacements in type names and record names *)

Module ReplaceFacts.
Import WdlTaskGenerator WdlWorkflowGenerator.

Lemma prefix_length old : forall s,
  String.prefix old s = true -> String.length old <= String.length s.
Proof.
  induction old as [|c old IH]; intros [|b s]; simpl; try discriminate;
    try lia.
  destruct (ascii_dec c b); [|discriminate].
  intros H. apply IH in H. lia.
Qed.

(** A closing bracket after a text does not change where a pattern
    without closing bracket starts it. *)
Lemma prefix_before_bracket old : forall s,
  ~ In "]"%char (list_ascii_of_string old) ->
  String.prefix old (s ++ "]") = String.prefix old s.
Proof.
  induction old as [|c old IH]; intros s Hc.
  - now destruct s.
  - simpl in Hc. destruct s as [|b s]; simpl.
    + destruct (ascii_dec c "]"); [|reflexivity]. subst c. now destruct Hc; left.
    + destruct (ascii_dec c b); [|reflexivity]. apply IH. intuition.
Qed.

Lemma replace_array_before_bracket s : forall k,
  k <= String.length s ->
  Py.replace_from "Array[" "" k (s ++ "]")
  = Py.replace_from "Array[" "" k s ++ "]".
Proof.
  induction s as [|c s IH]; intros k Hk.
  - assert (k = 0) by (simpl in Hk; lia). subst k. reflexivity.
  - change (String c s ++ "]") with (String c (s ++ "]")).
    destruct k as [|k].
    + cbn [Py.replace_from].
      change (String c (s ++ "]")) with (String c s ++ "]").
      rewrite prefix_before_bracket by (simpl; intuition discriminate).
      destruct (String.prefix "Array[" (String c s)) eqn:E.
      * apply prefix_length in E. simpl in E.
        rewrite IH by (simpl; lia). reflexivity.
      * rewrite IH by lia. reflexivity.
    + cbn [Py.replace_from]. apply IH. simpl in Hk. lia.
Qed.

Lemma remove_char_app (c : ascii) a b :
  Py.replace_from (String c "") "" 0 (a ++ b)
  = Py.replace_from (String c "") "" 0 a
    ++ Py.replace_from (String c "") "" 0 b.
Proof.
  induction a as [|x a IH]; [reflexivity|].
  change (String x a ++ b) with (String x (a ++ b)).
  cbn [Py.replace_from String.prefix String.length Nat.sub].
  destruct (ascii_dec c x).
  - replace (String.prefix "" (a ++ b)) with true by now destruct (a ++ b).
    replace (String.prefix "" a) with true by now destruct a.
    rewrite IH. reflexivity.
  - rewrite IH. reflexivity.
Qed.

Lemma replace_array_head v :
  Py.replace_from "Array[" "" 0 ("Array[" ++ v)
  = Py.replace_from "Array[" "" 0 v.
Proof. destruct v; reflexivity. Qed.

(** X5. An array of a type is a struct exactly when the type is one: the
    test removes one [Array[] and one closing bracket around the name,
    also when arrays are nested. *)
Theorem array_type_is_struct_like_its_element (self : WdlTaskGenerator.t)
    (vtype : string) :
  _is_struct self ("Array[" ++ vtype ++ "]") = _is_struct self vtype
  /\ _is_struct self ("Array[" ++ ("Array[" ++ vtype ++ "]") ++ "]")
     = _is_struct self vtype.
Proof.
  assert (H : forall v,
             Py.replace (Py.replace ("Array[" ++ v ++ "]") "Array[" "") "]" ""
             = Py.replace (Py.replace v "Array[" "") "]" "").
  { intros v. unfold Py.replace.
    rewrite replace_array_head.
    rewrite replace_array_before_bracket by lia.
    rewrite remove_char_app. simpl. apply Text.app_nil_r. }
  unfold _is_struct. cbv zeta. split.
  - now rewrite H.
  - now rewrite !H.
Qed.

(** X6. The loop variable of a pre-scatter block holds no dot: every dot
    of the base record has become an underscore, and the length is that
    of the base record and of [_item]. *)
Theorem base_rec_item_has_no_dot (base_rec : string) :
  ~ In "."%char (list_ascii_of_string (base_rec_item base_rec))
  /\ String.length (base_rec_item base_rec) = String.length base_rec + 5.
Proof.
  unfold base_rec_item, Py.replace.
  assert (H : forall s,
             ~ In "."%char
                  (list_ascii_of_string (Py.replace_from "." "_" 0 s ++ "_item"))
             /\ String.length (Py.replace_from "." "_" 0 s ++ "_item")
                = String.length s + 5).
  { induction s as [|c s [IH1 IH2]].
    - split; [simpl; intuition discriminate | reflexivity].
    - cbn [Py.replace_from String.prefix String.length Nat.sub].
      destruct (ascii_dec "." c) as [E | E].
      + replace (String.prefix "" s) with true by now destruct s.
        split.
        * simpl. intros [H | H]; [discriminate | now apply IH1].
        * simpl. simpl in IH2. now rewrite IH2.
      + split.
        * simpl. intros [H | H]; [now apply E | now apply IH1].
        * simpl. simpl in IH2. now rewrite IH2. }
  apply H.
Qed.

End ReplaceFacts.

(** ** Lines and fields *)

Module LineFacts.
Import WdlWorkflowGenerator Kinds.

(** No field of a split text holds the separator. *)
Lemma split_lacks c s : Forall (lacks c) (Py.split c s).
Proof.
  induction s as [|a s IH]; simpl.
  - constructor; [|constructor]. intros [].
  - destruct (Ascii.eqb_spec a c) as [E | E].
    + constructor; [intros [] | exact IH].
    + destruct (Py.split c s) as [|h t].
      * constructor; [|constructor].
        unfold lacks. simpl. intros [H | []]. now apply E.
      * inversion IH as [|? ? Hh Ht]; subst.
        constructor; [|exact Ht].
        unfold lacks in *. simpl. intros [H | H]; [now apply E | auto].
Qed.

(** Joining the fields with the separator gives the text back. *)
Lemma join_split c s : Py.join (String c "") (Py.split c s) = s.
Proof.
  induction s as [|a s IH]; [reflexivity|]. cbn [Py.split].
  destruct (Py.split c s) as [|h t] eqn:Hs;
    [now destruct (Text.split_not_nil c s)|].
  destruct (Ascii.eqb_spec a c) as [E | E].
  - subst a. rewrite Text.join_cons, IH. reflexivity.
  - destruct t as [|h' t].
    + cbn in *. now subst.
    + rewrite Text.join_cons in *. rewrite <- IH. reflexivity.
Qed.

Lemma split_whole c s : lacks c s -> Py.split c s = [s].
Proof.
  unfold lacks. induction s as [|a s IH]; intros H; [reflexivity|]. simpl in *.
  destruct (Ascii.eqb_spec a c) as [E | E]; [exfalso; auto|].
  rewrite IH by auto. reflexivity.
Qed.

(** Splitting what was joined gives the fields back, when no field holds
    the separator. *)
Lemma split_join c l :
  l <> [] -> Forall (lacks c) l -> Py.split c (Py.join (String c "") l) = l.
Proof.
  intros Hl H. induction H as [|x l Hx Hrest IH]; [congruence|].
  destruct l as [|y l].
  - simpl. now apply split_whole.
  - rewrite Text.join_cons.
    change (String c "" ++ Py.join (String c "") (y :: l))
      with (String c (Py.join (String c "") (y :: l))).
    rewrite Text.split_app, IH by discriminate.
    now rewrite split_whole.
Qed.

(** X7. The body of a scatter block keeps the lines of the wrapped text,
    each with two more spaces in front: no line is lost, added or
    merged. *)
Theorem scatter_body_keeps_lines (body : string) :
  Py.split "010" (indent_lines body)
  = map (fun l => "  " ++ l) (Py.split "010" body)
  /\ length (Py.split "010" (indent_lines body))
     = length (Py.split "010" body).
Proof.
  assert (H : Py.split "010" (indent_lines body)
              = map (fun l => "  " ++ l) (Py.split "010" body)).
  { unfold indent_lines. apply split_join.
    - intros E. apply map_eq_nil in E. now apply Text.split_not_nil in E.
    - apply Forall_map. eapply Forall_impl; [|apply split_lacks].
      intros l Hl. unfold lacks in *. simpl.
      intros [E | [E | E]]; try discriminate. auto. }
  split; [exact H|]. now rewrite H, length_map.
Qed.

(** X8. The identifier of an import line is the part of the task id after
    its last dot: it holds no dot, and the task id is this part, alone or
    after a qualifier that ends with a dot. *)
Theorem import_leaf_is_last_component (task_id : string) :
  let leaf := Py.last (Py.split "." task_id) in
  lacks "." leaf
  /\ (task_id = leaf \/ exists qualifier, task_id = qualifier ++ "." ++ leaf).
Proof.
  intros leaf. subst leaf.
  pose proof (split_lacks "." task_id) as Hl.
  pose proof (join_split "." task_id) as Hj.
  destruct (exists_last (Text.split_not_nil "." task_id)) as (l & x & E).
  rewrite E in *. unfold Py.last. rewrite last_last. split.
  - apply Forall_app in Hl as [_ Hl]. now inversion Hl.
  - destruct l as [|y l].
    + left. now symmetry.
    + right. exists (Py.join "." (y :: l)).
      rewrite Text.join_app in Hj by discriminate. now symmetry.
Qed.

End LineFacts.

(** ** The text of a workflow and of a task *)

Module DocumentFacts.
Import WdlWorkflowGenerator Steps Kinds.

Section AnyRegex.
Variable re_sub : string -> string -> string -> string.

Lemma no_definition_adds_nothing structs l :
  Forall (fun step => WorkflowStep.task_definition step = None) l ->
  flat_map step_imports l = []
  /\ flat_map (step_tasks re_sub structs) l = [].
Proof.
  induction 1 as [|step l Hs _ [IH1 IH2]]; [now split|].
  simpl. unfold step_imports at 1, step_tasks at 1.
  rewrite Hs, IH1, IH2. now split.
Qed.

Lemma document_grown self ids imports tasks x y :
  document re_sub (grown self ids imports tasks) x y = document re_sub self x y.
Proof. reflexivity. Qed.

Lemma generate_wdl_without_definitions self :
  Forall (fun step => WorkflowStep.task_definition step = None)
         (steps self ++ subworkflows self) ->
  generate_wdl re_sub self
  = (grown self (map WorkflowStep.task_id (steps self ++ subworkflows self))
           [] [],
     document re_sub self (imported_wfs self) (prepped_tasks self)).
Proof.
  intros Hnone.
  destruct (no_definition_adds_nothing (structs self) _ Hnone) as [Hi Ht].
  rewrite AccumulatorFacts.generate_wdl_grown. cbv zeta. rewrite Hi, Ht.
  f_equal. cbn [grown imported_wfs prepped_tasks].
  now rewrite !List.app_nil_r.
Qed.

(** X9. When no step owns a definition, [generate_wdl] can be called
    again on the same instance: the text is the same, the import lines
    and the nested tasks stay as they were, and only the list of task ids
    grows. *)
Theorem generate_wdl_repeatable_without_definitions (self : t) :
  Forall (fun step => WorkflowStep.task_definition step = None)
         (steps self ++ subworkflows self) ->
  let ids := map WorkflowStep.task_id (steps self ++ subworkflows self) in
  let first := generate_wdl re_sub self in
  let second := generate_wdl re_sub (fst first) in
  snd second = snd first
  /\ imported_wfs (fst second) = imported_wfs self
  /\ prepped_tasks (fst second) = prepped_tasks self
  /\ task_ids (fst second) = (task_ids self ++ ids ++ ids)%list.
Proof.
  intros Hnone ids first second. subst second first.
  rewrite (generate_wdl_without_definitions self Hnone). cbn [fst snd].
  fold ids.
  rewrite (generate_wdl_without_definitions (grown self ids [] []) Hnone).
  cbn [fst snd]. rewrite document_grown.
  cbn [grown imported_wfs prepped_tasks task_ids steps subworkflows].
  fold ids. rewrite !List.app_nil_r, <- List.app_assoc.
  repeat split.
Qed.

Lemma owned_counts structs l :
  length (flat_map (step_tasks re_sub structs) l) = length (filter owns_task l)
  /\ length (flat_map step_imports l) = length (filter owns_workflow l).
Proof.
  induction l as [|step l [IH1 IH2]]; [now split|].
  simpl. rewrite !length_app, IH1, IH2.
  unfold step_tasks, step_imports, owns_task, owns_workflow.
  destruct (WorkflowStep.task_definition step);
    [destruct (WorkflowStep.step_type step =? "task")|]; simpl; split; lia.
Qed.

(** X10. After [generate_wdl] on a new instance there is one nested task
    for every step that owns a definition of type [task], one import line
    for every step that owns a definition of another type, and one task id
    for every step. *)
Theorem one_entry_per_owned_definition (wf : Workflow.t) :
  let all := (Workflow.steps wf ++ Workflow.subworkflows wf)%list in
  let after := fst (generate_wdl re_sub (init wf)) in
  length (prepped_tasks after) = length (filter owns_task all)
  /\ length (imported_wfs after) = length (filter owns_workflow all)
  /\ length (task_ids after) = length all.
Proof.
  intros all after. subst after.
  rewrite AccumulatorFacts.generate_wdl_grown. simpl.
  fold all. destruct (owned_counts (Workflow.structs wf) all) as [H1 H2].
  rewrite H1, H2, length_map. repeat split.
Qed.

Lemma template_end imports structs name inputs steps outputs tasks :
  template imports structs name inputs steps outputs tasks
  = (Py.nl ++ imports ++ Py.nl ++ structs ++ Py.nl ++ Py.nl
     ++ "workflow " ++ name ++ " {" ++ Py.nl
     ++ "    " ++ inputs ++ Py.nl
     ++ "    " ++ steps ++ Py.nl)
    ++ "    " ++ outputs ++ Py.nl ++ "}" ++ Py.nl ++ tasks ++ Py.nl.
Proof.
  unfold template. rewrite !Text.app_assoc. reflexivity.
Qed.

(** X11. A workflow without outputs has the text [None] where the output
    block would stand, on the line before the brace that closes the
    workflow. *)
Theorem workflow_without_outputs_prints_None (self : t) :
  outputs self = [] ->
  exists head,
    snd (generate_wdl re_sub self)
    = head ++ "    None" ++ Py.nl ++ "}" ++ Py.nl
      ++ Py.join Py.nl (prepped_tasks (fst (generate_wdl re_sub self)))
      ++ Py.nl.
Proof.
  intros Hout. rewrite AccumulatorFacts.generate_wdl_grown. cbv zeta.
  cbn [fst snd]. unfold document, format_outputs.
  rewrite Hout. cbn [str_of]. rewrite template_end.
  eexists. reflexivity.
Qed.

End AnyRegex.

Lemma generate_wdl_repeatable_without_definitions_witness :
  Forall (fun step => WorkflowStep.task_definition step = None)
         (steps (init imported_only) ++ subworkflows (init imported_only))
  /\ snd (generate_wdl Re.sub_or_same
            (fst (generate_wdl Re.sub_or_same (init imported_only))))
     = snd (generate_wdl Re.sub_or_same (init imported_only)).
Proof.
  assert (H : Forall (fun step => WorkflowStep.task_definition step = None)
                (steps (init imported_only)
                 ++ subworkflows (init imported_only)))
    by (repeat constructor).
  split; [exact H|].
  apply (generate_wdl_repeatable_without_definitions Re.sub_or_same
           (init imported_only) H).
Defined.

Lemma workflow_without_outputs_prints_None_witness :
  outputs (init imported_only) = []
  /\ exists head,
       snd (generate_wdl Re.sub_or_same (init imported_only))
       = head ++ "    None" ++ Py.nl ++ "}" ++ Py.nl
         ++ Py.join Py.nl
              (prepped_tasks
                 (fst (generate_wdl Re.sub_or_same (init imported_only))))
         ++ Py.nl.
Proof.
  split; [reflexivity|].
  apply (workflow_without_outputs_prints_None Re.sub_or_same
           (init imported_only)).
  reflexivity.
Defined.

End DocumentFacts.

(** ** Blocks and bindings of a workflow, and the runtime block of a task *)

Module BlockFacts.
Import WdlWorkflowGenerator Steps Kinds.

Lemma concat_cons b l : String.concat "" (b :: l) = b ++ String.concat "" l.
Proof.
  destruct l; simpl; [now rewrite Text.app_nil_r | reflexivity].
Qed.

(** A loop that appends a block for every item. *)
Lemma append_blocks {X : Type} (block : X -> string) l : forall out,
  fold_left (fun out item => out ++ block item) l out
  = out ++ String.concat "" (map block l).
Proof.
  induction l as [|x l IH]; intros out.
  - simpl. now rewrite Text.app_nil_r.
  - cbn [fold_left map]. now rewrite IH, concat_cons, Text.app_assoc.
Qed.

(** X12. The pre-scatter text of a mapping is the text of its first
    entries followed by the text of the others: there is one block for
    every entry, in the order of the entries, and nothing for an empty
    mapping. *)
Theorem prescatter_blocks_in_order
    (first others : list (string * list (string * string * string))) :
  _format_prescatter (first ++ others)
  = _format_prescatter first ++ _format_prescatter others
  /\ _format_prescatter first
     = String.concat "" (map prescatter_block first).
Proof.
  unfold _format_prescatter. split.
  - rewrite fold_left_app, !append_blocks. simpl.
    generalize (String.concat "" (map prescatter_block first)).
    intros s. reflexivity.
  - now rewrite append_blocks.
Qed.

(** X13. The struct text is empty for a workflow without structs;
    otherwise it is a newline followed by one block for every struct, in
    their order. *)
Theorem struct_blocks_in_order (self : t) :
  format_structs self
  = match structs self with
    | [] => ""
    | _ :: _ => Py.nl ++ String.concat "" (map struct_block (structs self))
    end.
Proof.
  unfold format_structs. rewrite append_blocks. simpl.
  destruct (structs self) as [|st rest]; [reflexivity|].
  destruct (String.concat "" (map struct_block (st :: rest))) eqn:E;
    [|reflexivity].
  exfalso. simpl in E. destruct (map struct_block rest); discriminate.
Qed.

Section AnyRegex.
Variable re_sub : string -> string -> string -> string.

Lemma later_bindings_padded task_id l : forall k,
  map (binding_line re_sub task_id) (Py.enumerate_from (S k) l)
  = map (fun inp =>
           "          "
           ++ re_sub (task_id ++ "\.") "" (StepInput.input_id inp)
           ++ "=" ++ StepInput.value inp) l.
Proof.
  induction l as [|inp l IH]; intros k; [reflexivity|].
  simpl. now rewrite IH.
Qed.

(** X14. In a call block only the first binding starts its line; every
    later binding follows ten spaces.  The bindings keep the order and
    the number of the inputs of the step. *)
Theorem only_first_binding_unpadded (task_id : string) (first : StepInput.t)
    (others : list StepInput.t) :
  map (binding_line re_sub task_id) (Py.enumerate (first :: others))
  = (re_sub (task_id ++ "\.") "" (StepInput.input_id first)
     ++ "=" ++ StepInput.value first)
    :: map (fun inp =>
              "          "
              ++ re_sub (task_id ++ "\.") "" (StepInput.input_id inp)
              ++ "=" ++ StepInput.value inp) others.
Proof.
  unfold Py.enumerate. simpl. now rewrite later_bindings_padded.
Qed.

Lemma runtime_line_printed req line :
  In line (WdlTaskGenerator.runtime_line req) -> printed req /\ line <> "".
Proof.
  destruct req as [value | [ty|] [value|]]; simpl; try contradiction.
  destruct (String.eqb_spec ty "envVar") as [E | E]; simpl; [contradiction|].
  intros [<- | []]. split.
  - exists ty, value. now split.
  - intros H. apply (f_equal String.length) in H.
    rewrite !Text.length_app in H. simpl in H. lia.
Qed.

Lemma runtime_line_none req :
  WdlTaskGenerator.runtime_line req = [] -> ~ printed req.
Proof.
  intros H (ty & value & -> & Hty). simpl in H.
  apply String.eqb_neq in Hty. rewrite Hty in H. discriminate.
Qed.

(** The two cases of [generate_wdl]. *)
Lemma runtime_block_cases (self : WdlTaskGenerator.t) :
  let wdl :=
    WdlTaskGenerator.template (WdlTaskGenerator.name self)
      (WdlTaskGenerator.format_inputs re_sub self)
      (WdlTaskGenerator.format_command self)
      (WdlTaskGenerator.format_outputs self)
      (WdlTaskGenerator.format_runtime self) in
  (Exists printed (WdlTaskGenerator.requirements self)
   /\ WdlTaskGenerator.format_runtime self <> ""
   /\ WdlTaskGenerator.generate_wdl re_sub self = wdl)
  \/ (Forall (fun req => ~ printed req) (WdlTaskGenerator.requirements self)
      /\ WdlTaskGenerator.format_runtime self = ""
      /\ WdlTaskGenerator.generate_wdl re_sub self
         = re_sub "\s+runtime {\s+}" "" wdl).
Proof.
  intros wdl. subst wdl. unfold WdlTaskGenerator.generate_wdl.
  assert (Hrt : WdlTaskGenerator.format_runtime self
                = Py.join (Py.nl ++ "        ")
                    (flat_map WdlTaskGenerator.runtime_line
                       (WdlTaskGenerator.requirements self)))
    by reflexivity.
  destruct (flat_map WdlTaskGenerator.runtime_line
              (WdlTaskGenerator.requirements self)) as [|line lines] eqn:E.
  - right. split; [|split].
    + clear Hrt.
      induction (WdlTaskGenerator.requirements self) as [|req reqs IH];
        [constructor|].
      simpl in E. apply app_eq_nil in E as [E1 E2].
      constructor; [now apply runtime_line_none | now apply IH].
    + exact Hrt.
    + rewrite Hrt. reflexivity.
  - left.
    assert (Hin : In line (flat_map WdlTaskGenerator.runtime_line
                             (WdlTaskGenerator.requirements self)))
      by (rewrite E; now left).
    apply in_flat_map in Hin. destruct Hin as (req & Hreq & Hl).
    destruct (runtime_line_printed req line Hl) as [Hp Hne].
    assert (Hjoin : WdlTaskGenerator.format_runtime self <> "").
    { rewrite Hrt. destruct line as [|c line]; [congruence|].
      destruct lines; discriminate. }
    split; [|split].
    + apply Exists_exists. eauto.
    + exact Hjoin.
    + apply String.eqb_neq in Hjoin. now rewrite Hjoin.
Qed.

(** X15. The runtime text of a task is not empty exactly when some
    requirement is printed in it, that is a requirement with a type other
    than [envVar] and with a value.  In that case [generate_wdl] returns
    the filled template as it is; in the other case the runtime text is
    empty and [generate_wdl] returns what the substitution of the empty
    runtime block makes of the filled template. *)
Theorem runtime_block_kept_or_removed (self : WdlTaskGenerator.t) :
  let wdl :=
    WdlTaskGenerator.template (WdlTaskGenerator.name self)
      (WdlTaskGenerator.format_inputs re_sub self)
      (WdlTaskGenerator.format_command self)
      (WdlTaskGenerator.format_outputs self)
      (WdlTaskGenerator.format_runtime self) in
  (Exists printed (WdlTaskGenerator.requirements self)
   <-> WdlTaskGenerator.format_runtime self <> "")
  /\ ((Exists printed (WdlTaskGenerator.requirements self)
       /\ WdlTaskGenerator.generate_wdl re_sub self = wdl)
      \/ (Forall (fun req => ~ printed req) (WdlTaskGenerator.requirements self)
          /\ WdlTaskGenerator.format_runtime self = ""
          /\ WdlTaskGenerator.generate_wdl re_sub self
             = re_sub "\s+runtime {\s+}" "" wdl)).
Proof.
  intros wdl. subst wdl.
  destruct (runtime_block_cases self) as [(Hex & Hne & Hgen) | (Hall & He & Hgen)].
  - split; [tauto|]. left. now split.
  - split.
    + split.
      * intros Hex. apply Exists_exists in Hex as (req & Hin & Hp).
        rewrite Forall_forall in Hall. now destruct (Hall req Hin).
      * intros Hne. now destruct Hne.
    + right. repeat split; assumption.
Qed.

End AnyRegex.

End BlockFacts.

(** ** Binding names for plain task ids *)

Module BindingFacts.
Import WdlWorkflowGenerator Kinds.

Lemma plain_char_literal c :
  plain_char c = true ->
  Ascii.eqb c "\" = false /\ Ascii.eqb c "." = false /\ Re.is_meta c = false.
Proof.
  destruct c as [[] [] [] [] [] [] [] []]; vm_compute; intros H;
    try discriminate H; repeat split.
Qed.

Lemma compile_plain t rest atoms :
  plain_id t = true ->
  Re.compile rest = Some atoms ->
  Re.compile (t ++ rest)
  = Some (map Re.Lit (list_ascii_of_string t) ++ atoms)%list.
Proof.
  intros Ht Hrest. unfold plain_id in Ht.
  induction t as [|c t IH]; [exact Hrest|].
  simpl in Ht. apply andb_prop in Ht as [Hc Ht].
  destruct (plain_char_literal c Hc) as (H1 & H2 & H3).
  cbn [append Re.compile list_ascii_of_string map].
  rewrite H1, H2, H3, (IH Ht). reflexivity.
Qed.

Lemma matches_literals t q rest :
  Re.matches_here (map Re.Lit (list_ascii_of_string t) ++ q) (t ++ rest)
  = Re.matches_here q rest.
Proof.
  induction t as [|c t IH]; [reflexivity|].
  simpl. now rewrite Ascii.eqb_refl, IH.
Qed.

Lemma sub_from_skip p repl a b : forall k,
  String.length a = k -> Re.sub_from p repl k (a ++ b) = Re.sub_from p repl 0 b.
Proof.
  induction a as [|c a IH]; intros k Hk; simpl in Hk; subst k;
    [reflexivity|].
  simpl. now apply IH.
Qed.

(** A match at the start is replaced, and the scan goes on after it. *)
Lemma sub_from_match p a b :
  p <> [] ->
  String.length a = List.length p ->
  Re.matches_here p (a ++ b) = true ->
  Re.sub_from p "" 0 (a ++ b) = Re.sub_from p "" 0 b.
Proof.
  intros Hp Hlen Hm. destruct a as [|c a].
  - destruct p; [congruence | discriminate].
  - change (String c a ++ b) with (String c (a ++ b)) in *.
    cbn [Re.sub_from]. rewrite Hm. simpl in Hlen.
    change ("" ++ Re.sub_from p "" (List.length p - 1) (a ++ b))
      with (Re.sub_from p "" (List.length p - 1) (a ++ b)).
    apply sub_from_skip. lia.
Qed.

(** A pattern that ends with an escaped dot matches only where a dot
    follows. *)
Lemma match_needs_dot q : forall s,
  Re.matches_here (q ++ [Re.Lit "."]) s = true -> ~ lacks "." s.
Proof.
  unfold lacks.
  induction q as [|a q IH]; intros [|c s];
    cbn [Re.matches_here Re.atom_matches app list_ascii_of_string In];
    try discriminate.
  - intros H Hn. apply andb_prop in H as [H _].
    apply Ascii.eqb_eq in H. auto.
  - intros H Hn. apply andb_prop in H as [_ H]. apply (IH s H). auto.
Qed.

Lemma sub_from_without_dot q name :
  lacks "." name ->
  Re.sub_from (q ++ [Re.Lit "."]) "" 0 name = name.
Proof.
  induction name as [|c name IH]; intros Hl; [reflexivity|].
  cbn [Re.sub_from].
  destruct (Re.matches_here (q ++ [Re.Lit "."]) (String c name)) eqn:E.
  - now apply match_needs_dot in E.
  - rewrite IH; [reflexivity|]. unfold lacks in *. simpl in Hl. auto.
Qed.

Lemma length_literals t :
  List.length (map Re.Lit (list_ascii_of_string t)) = String.length t.
Proof.
  induction t as [|c t IH]; simpl; [reflexivity | now rewrite IH].
Qed.

(** X16. For a task id made of letters, digits and underscores, and an
    input id that is the task id, a dot and a name without dot, the
    substitution removes the qualifier and nothing else: the binding line
    is the name, the equals sign and the value. *)
Theorem plain_qualifier_removed (task_id name : string) :
  plain_id task_id = true ->
  lacks "." name ->
  Re.sub (task_id ++ "\.") "" (task_id ++ "." ++ name) = Some name
  /\ forall i value,
       binding_line Re.sub_or_same task_id
         (i, StepInput.mk (task_id ++ "." ++ name) value)
       = (if (0 <? i)%nat then "          " else "") ++ name ++ "=" ++ value.
Proof.
  intros Hplain Hname.
  assert (Hsub : Re.sub (task_id ++ "\.") "" (task_id ++ "." ++ name)
                 = Some name).
  { unfold Re.sub.
    rewrite (compile_plain task_id "\." [Re.Lit "."] Hplain eq_refl).
    set (q := map Re.Lit (list_ascii_of_string task_id)).
    destruct (q ++ [Re.Lit "."])%list as [|a p] eqn:E.
    { now apply app_eq_nil in E as [_ E]. }
    rewrite <- E. cbn [existsb list_ascii_of_string]. f_equal.
    rewrite <- Text.app_assoc.
    rewrite sub_from_match.
    - now apply sub_from_without_dot.
    - rewrite E. discriminate.
    - rewrite Text.length_app, length_app. subst q.
      now rewrite length_literals.
    - rewrite Text.app_assoc. subst q. rewrite matches_literals.
      reflexivity. }
  split; [exact Hsub|].
  intros i value. unfold binding_line, Re.sub_or_same.
  cbn [fst snd StepInput.input_id StepInput.value].
  rewrite Hsub. reflexivity.
Qed.

Lemma plain_qualifier_removed_witness :
  plain_id "align_2" = true
  /\ lacks "." "bam"
  /\ Re.sub ("align_2" ++ "\.") "" ("align_2" ++ "." ++ "bam") = Some "bam".
Proof.
  assert (Hl : lacks "." "bam").
  { unfold lacks. simpl. intuition discriminate. }
  split; [reflexivity|]. split; [exact Hl|].
  apply (plain_qualifier_removed "align_2" "bam" eq_refl Hl).
Defined.

End BindingFacts.

(** ** The tokens of the environment *)

Module EnvFacts.
Import WdlTaskGenerator Order OrderFacts Declared.

Lemma ordered_parts_not_nil self : ordered_command_parts self <> [].
Proof.
  intros E.
  pose proof (DeclaredFacts.ordered_entries_perm self) as Hp.
  rewrite DeclaredFacts.collected_entries_declared in Hp.
  apply Permutation_length in Hp.
  rewrite <- ordered_parts_entries in E. apply map_eq_nil in E.
  rewrite E in Hp. discriminate Hp.
Qed.

(** X17. An [envVar] requirement declared after the others puts its
    token in front of the whole command, the tokens of the earlier
    requirements included: the environment comes out in the reverse of
    the order of its declaration. *)
Theorem last_env_requirement_comes_first (self : t)
    (reqs : list Requirement.t) (value : list (string * string)) :
  final_command_parts
    (with_requirements self (reqs ++ [Requirement.EnvVar value]))
  = envvar_token value :: final_command_parts (with_requirements self reqs)
  /\ format_command
       (with_requirements self (reqs ++ [Requirement.EnvVar value]))
     = envvar_token value ++ continuation
       ++ format_command (with_requirements self reqs).
Proof.
  assert (H : final_command_parts
                (with_requirements self (reqs ++ [Requirement.EnvVar value]))
              = envvar_token value
                :: final_command_parts (with_requirements self reqs)).
  { unfold final_command_parts. simpl. rewrite fold_left_app. reflexivity. }
  split; [exact H|].
  unfold format_command. rewrite H.
  destruct (final_command_parts (with_requirements self reqs)) as [|tok toks]
    eqn:E; [|reflexivity].
  exfalso. unfold final_command_parts in E.
  apply app_eq_nil in E as [E _].
  rewrite requirements_prepended in E. apply app_eq_nil in E as [_ E].
  exact (ordered_parts_not_nil (with_requirements self reqs) E).
Qed.

End EnvFacts.
